(** * gen-ai-chess-app: the HTTP chess server of [index.js]

    A shallow embedding of the server's request handlers and of the helper
    functions they call, with the statements of the specification proved or
    refuted against them.

    - JavaScript strings are lists of UTF-16 code units ([jsstring]).
    - chess.js (the Rules Engine), the OpenAI client (the Move Oracle) and
      [JSON.parse] are libraries the repository imports: they appear as the
      operations of a class and as section variables, and every assumption
      made about them is a named hypothesis.
    - The single live [chess] object is threaded through the handlers as an
      explicit state. *)

From Stdlib Require Import ZArith List Bool Lia String Ascii.
From Stdlib Require Import DecimalString DecimalPos DecimalZ.
Import ListNotations.
Open Scope Z_scope.

(** ** JavaScript strings and numbers *)

Module JS.

(** A string is its sequence of UTF-16 code units. *)
Definition jsstring := list Z.

(** An ASCII literal of the source, one code unit per character. *)
Definition lit (s : string) : jsstring :=
  map (fun a => Z.of_N (N_of_ascii a)) (list_ascii_of_string s).

(** The double quote and the right single quotation mark (U+2019, the
    apostrophe the error messages are typed with). *)
Definition dq : jsstring := [34].
Definition rsquo : jsstring := [8217].

(** [String.fromCharCode(n)]: one code unit, [ToUint16 n]. *)
Definition fromCharCode (n : Z) : jsstring := [n mod 65536].

(** [String(n)] for an integer [n] (exact for the safe integers, which print
    in plain decimal with a leading minus sign when negative). *)
Definition Z_toString (n : Z) : jsstring :=
  lit (NilZero.string_of_int (Z.to_int n)).

(** The numbers the handlers compute with: integers, and NaN, which is what
    arithmetic on [undefined] yields. *)
Inductive number : Type :=
| NaN
| Int (n : Z).

(** A value read from a request body where a number is expected: the field is
    missing ([undefined]) or holds an integer, as the browser client sends. *)
Inductive value : Type :=
| Undefined
| Num (n : Z).

(** [ToNumber] *)
Definition toNumber (v : value) : number :=
  match v with
  | Undefined => NaN
  | Num n => Int n
  end.

(** [a + b] and [a - b] on numbers.  The source computes with IEEE doubles;
    the sums here are exact, which is what the source computes as long as
    the operands and the result are safe integers (of magnitude at most
    2^53).  Statements about all integers are made only where rounding
    cannot change them; the others carry a bound. *)
Definition add (a b : number) : number :=
  match a, b with
  | Int x, Int y => Int (x + y)
  | _, _ => NaN
  end.

Definition sub (a b : number) : number :=
  match a, b with
  | Int x, Int y => Int (x - y)
  | _, _ => NaN
  end.

(** [String.fromCharCode(x)]: NaN converts to code unit 0. *)
Definition fromCharCodeNum (x : number) : jsstring :=
  match x with
  | NaN => fromCharCode 0
  | Int n => fromCharCode n
  end.

(** [ToString] of a number, as string concatenation applies it. *)
Definition numToString (x : number) : jsstring :=
  match x with
  | NaN => lit "NaN"
  | Int n => Z_toString n
  end.

(** [arr.join(sep)] *)
Fixpoint join (sep : jsstring) (parts : list jsstring) : jsstring :=
  match parts with
  | [] => []
  | [p] => p
  | p :: rest => p ++ sep ++ join sep rest
  end.

(** [s1 === s2] on strings *)
Fixpoint streq (s1 s2 : jsstring) : bool :=
  match s1, s2 with
  | [], [] => true
  | c1 :: t1, c2 :: t2 => (c1 =? c2) && streq t1 t2
  | _, _ => false
  end.

End JS.
Import JS.

(** ** Coordinate translation *)

(** [coordsToAlgebraic(row, col)], index.js lines 61-65. *)
Definition coordsToAlgebraic (row col : value) : jsstring :=
  let file := fromCharCodeNum (add (Int 97) (toNumber col)) in
  let rank := sub (Int 8) (toNumber row) in
  file ++ numToString rank.

(** A square name: a file letter 'a'..'h' followed by a rank digit '1'..'8'. *)
Definition is_square (s : jsstring) : bool :=
  match s with
  | [f; r] => (97 <=? f) && (f <=? 104) && (49 <=? r) && (r <=? 56)
  | _ => false
  end.

Definition in_range (row col : Z) : bool :=
  (0 <=? row) && (row <=? 7) && (0 <=? col) && (col <=? 7).

(** The translator as the specification words it: it fails (here [None], the
    specification's OutOfRangeError) outside [0,7]x[0,7] and names the square
    inside. *)
Definition toAlgebraic_checked (row col : Z) : option jsstring :=
  if in_range row col then Some [97 + col; 48 + (8 - row)] else None.

(** ** The Rules Engine (chess.js) *)

(** ['w'] and ['b'] *)
Inductive Color : Type := White | Black.

Definition Color_eqb (a b : Color) : bool :=
  match a, b with
  | White, White | Black, Black => true
  | _, _ => false
  end.

(** ['p'], ['r'], ['n'], ['b'], ['q'], ['k'] *)
Inductive PieceType : Type := Pawn | Rook | Knight | Bishop | Queen | King.

(** A cell of [chess.board()]: [{ type, color }]. *)
Record Piece : Type := mkPiece { p_type : PieceType; p_color : Color }.

(** The members of a verbose move object that the server reads. *)
Record Move : Type := mkMove { m_color : Color; m_from : jsstring; m_to : jsstring }.

(** How a call of [chess.move] ends.  It returns the move object when it
    makes the move.  It refuses a move either by returning [null] (chess.js
    before 1.0.0) or by throwing an Error (chess.js from 1.0.0 on); the
    repository pins no version, so both are modelled. *)
Inductive MoveOutcome : Type :=
| Returns (moveResult : option Move)
| Throws (message : jsstring).

(** The move object, when the call made the move. *)
Definition accepted (o : MoveOutcome) : option Move :=
  match o with
  | Returns moveResult => moveResult
  | Throws _ => None
  end.

(** The operations of a [Chess] object that index.js calls.  [board c r k] is
    [c.board()[r][k]] for [r], [k] below 8 (chess.js always returns an 8x8
    array); [move c from to promotion] is [c.move({from, to, promotion})]: how
    the call ends, and the object's state after the call. *)
Class RulesEngine (Chess : Type) : Type := {
  turn : Chess -> Color;
  fen : Chess -> jsstring;
  board : Chess -> nat -> nat -> option Piece;
  history : Chess -> list Move;
  moves : Chess -> list Move;
  move : Chess -> jsstring -> jsstring -> PieceType -> MoveOutcome * Chess
}.

(** ** The Move Oracle (OpenAI chat completion) *)

(** What [await openai.chat.completions.create(...)] does: it throws
    (transport or service failure), or it yields a completion whose
    [choices[0].message.content] is a string, or one on which reading that
    member and calling [.trim()] throws (no choice, [null] content). *)
Inductive Completion : Type :=
| CallFails
| Completes (content : option jsstring).

(** ** [JSON.parse] on the oracle's answer *)

(** A member of the parsed object as the loop uses it: compared with [===]
    against a string and printed by a template literal.  [MOther text] is any
    value that is not a string (an absent member is [undefined]), with the
    text [String(value)]. *)
Inductive Member : Type :=
| MString (s : jsstring)
| MOther (text : jsstring).

Definition member_text (m : Member) : jsstring :=
  match m with
  | MString s => s
  | MOther text => text
  end.

(** [s === m] for a string [s] *)
Definition member_is (s : jsstring) (m : Member) : bool :=
  match m with
  | MString s' => streq s s'
  | MOther _ => false
  end.

(** The object [JSON.parse] returns for a text that starts with an opening
    brace (any such text parses to an object or not at all). *)
Record AiMove : Type := mkAiMove { ai_from : Member; ai_to : Member }.

(** ** HTTP responses *)

Record View : Type := mkView {
  v_board : list (list jsstring);
  v_currentPlayer : jsstring;
  v_history : list Move
}.

(** The body of a response: one of the two JSON objects the routes send, or
    the HTML page with which Express answers when an exception leaves a
    handler (the page reports the error with this message). *)
Inductive Body : Type :=
| ErrorBody (error : jsstring)
| ViewBody (v : View)
| ErrorPage (message : jsstring).

Record Response : Type := mkResponse { status : Z; body : Body }.

(** [res.status(400).json({ error })] and [res.json(view)] *)
Definition bad_request (error : jsstring) : Response := mkResponse 400 (ErrorBody error).
Definition ok (v : View) : Response := mkResponse 200 (ViewBody v).

(** The answer of Express's default error handler to an exception that a
    synchronous handler does not catch. *)
Definition server_error (message : jsstring) : Response := mkResponse 500 (ErrorPage message).

(** The body of POST /api/move: [from] and [to] are [None] when falsy
    (absent), otherwise the [row] and [col] read from them. *)
Record Coords : Type := mkCoords { row : value; col : value }.
Record MoveRequest : Type := mkMoveRequest { rq_from : option Coords; rq_to : option Coords }.

(** ** Extraction of the JSON object from the oracle's text *)

Module Extract.

(** WhiteSpace and LineTerminator code units, which [trim] removes. *)
Definition is_white (c : Z) : bool :=
  ((9 <=? c) && (c <=? 13)) || (c =? 32) || (c =? 160) || (c =? 5760)
  || ((8192 <=? c) && (c <=? 8202)) || (c =? 8232) || (c =? 8233)
  || (c =? 8239) || (c =? 8287) || (c =? 12288) || (c =? 65279).

Fixpoint trimStart (s : jsstring) : jsstring :=
  match s with
  | [] => []
  | c :: t => if is_white c then trimStart t else s
  end.

Fixpoint trimEnd (s : jsstring) : jsstring :=
  match s with
  | [] => []
  | c :: t =>
      match trimEnd t with
      | [] => if is_white c then [] else [c]
      | t' => c :: t'
      end
  end.

Definition trim (s : jsstring) : jsstring := trimEnd (trimStart s).

Definition lbrace : Z := 123.
Definition rbrace : Z := 125.

(** The pattern [/\{[\s\S]*?\}/] run by a backtracking matcher.
    [lazy_tail s] matches [[\s\S]*?\}] at the head of [s]: the lazy star first
    tries to stop, which needs a closing brace here, and otherwise takes one
    more code unit ([[\s\S]] accepts every code unit). *)
Fixpoint lazy_tail (s : jsstring) : option jsstring :=
  match s with
  | [] => None
  | c :: t =>
      if c =? rbrace then Some [c]
      else option_map (cons c) (lazy_tail t)
  end.

(** The whole pattern at the head of [s]. *)
Definition match_here (s : jsstring) : option jsstring :=
  match s with
  | [] => None
  | c :: t => if c =? lbrace then option_map (cons c) (lazy_tail t) else None
  end.

(** [s.match(/\{[\s\S]*?\}/)[0]], or [None] for a [null] match: the start
    positions are tried from left to right. *)
Fixpoint match_object (s : jsstring) : option jsstring :=
  match match_here s with
  | Some m => Some m
  | None =>
      match s with
      | [] => None
      | _ :: t => match_object t
      end
  end.

(** [m] is the first text of [raw] that the pattern matches: it runs from the
    first opening brace of [raw] to the earliest closing brace after it. *)
Definition first_object (raw m : jsstring) : Prop :=
  exists pre mid post,
    raw = pre ++ m ++ post /\ m = lbrace :: mid ++ [rbrace]
    /\ ~ In lbrace pre /\ ~ In rbrace mid.

(** Some text of [raw] matches the pattern: an opening brace with a closing
    brace somewhere after it. *)
Definition has_object (raw : jsstring) : Prop :=
  exists pre mid post, raw = pre ++ lbrace :: mid ++ rbrace :: post.

End Extract.

(** ** The list of recent moves in the prompt *)

Definition nl : jsstring := [10].

(** [arr.map((x, index) => f x index)], the index counted from [i]. *)
Fixpoint mapi_from {A B : Type} (i : nat) (f : A -> nat -> B) (l : list A) : list B :=
  match l with
  | [] => []
  | x :: t => f x i :: mapi_from (S i) f t
  end.

Definition recentMovesCount : Z := 8.

(** The line of one move, lines 186-188. *)
Definition move_line (total : Z) (m : Move) (index : nat) : jsstring :=
  let moveNum := total - recentMovesCount + Z.of_nat index + 1 in
  let color := if Color_eqb (m_color m) White then lit "White" else lit "Black" in
  Z_toString moveNum ++ lit ". " ++ color ++ lit " moved " ++ m_from m
    ++ lit " -> " ++ m_to m.

(** The line of a move that is given the number [n]. *)
Definition numbered_line (n : Z) (m : Move) : jsstring :=
  Z_toString n ++ lit ". " ++ (if Color_eqb (m_color m) White then lit "White" else lit "Black")
    ++ lit " moved " ++ m_from m ++ lit " -> " ++ m_to m.

(** [recentMoves] of [buildOpenAIPrompt], lines 183-189. *)
Definition recentMoves (allMoves : list Move) : list jsstring :=
  let total := Z.of_nat (List.length allMoves) in
  let sliceStart := Z.max 0 (total - recentMovesCount) in
  mapi_from 0 (move_line total) (skipn (Z.to_nat sliceStart) allMoves).

(** The list the specification asks for: the last [min 8 total] moves, each
    with its number in the whole game (the move at position [i], counted from
    0, is move [i + 1]). *)
Definition recentMoves_true (allMoves : list Move) : list jsstring :=
  let skipped := (List.length allMoves - 8)%nat in
  mapi_from 0 (fun m index => numbered_line (Z.of_nat skipped + Z.of_nat index + 1) m)
            (skipn skipped allMoves).

(** ** The corrective notes of the retry loop *)

Definition note_empty : jsstring :=
  nl ++ lit "NOTE: Your previous response was invalid or empty. Please return valid JSON." ++ nl.

Definition note_parse : jsstring :=
  nl ++ lit "NOTE: Could not parse your JSON. Please output strictly valid JSON." ++ nl.

Definition note_illegal (aiMove : AiMove) : jsstring :=
  nl ++ lit "NOTE: Move {from:" ++ dq ++ member_text (ai_from aiMove) ++ dq
     ++ lit ",to:" ++ dq ++ member_text (ai_to aiMove) ++ dq
     ++ lit "} is illegal or invalid. Please try again." ++ nl.

(** One round trip as the server logs it: the prompt sent and what
    [callOpenAiForMove] returned for it. *)
Record Exchange : Type := mkExchange { ex_prompt : jsstring; ex_answer : option jsstring }.

(** ** Concrete collaborators for the examples *)

(** A Rules Engine that knows one line of play, 1. e4 e5: the state is the
    number of plies played, the only legal move is the next move of the line,
    and a move off the line is refused without effect, by returning [null]. *)
Module Book.

Record Ply : Type := mkPly { mover : Color; src : nat * nat; dst : nat * nat }.

Definition line : list Ply :=
  [ mkPly White (6, 4) (4, 4); mkPly Black (1, 4) (3, 4) ]%nat.

Definition square (rc : nat * nat) : jsstring :=
  coordsToAlgebraic (Num (Z.of_nat (fst rc))) (Num (Z.of_nat (snd rc))).

Definition as_move (p : Ply) : Move := mkMove (mover p) (square (src p)) (square (dst p)).

Definition back_rank : list PieceType :=
  [Rook; Knight; Bishop; Queen; King; Bishop; Knight; Rook].

Definition start (r c : nat) : option Piece :=
  match r with
  | 0%nat => option_map (fun t => mkPiece t Black) (nth_error back_rank c)
  | 1%nat => if (c <? 8)%nat then Some (mkPiece Pawn Black) else None
  | 6%nat => if (c <? 8)%nat then Some (mkPiece Pawn White) else None
  | 7%nat => option_map (fun t => mkPiece t White) (nth_error back_rank c)
  | _ => None
  end.

Definition same (a b : nat * nat) : bool :=
  ((fst a =? fst b) && (snd a =? snd b))%nat.

Definition play (b : nat -> nat -> option Piece) (p : Ply) : nat -> nat -> option Piece :=
  fun r c =>
    if same (r, c) (dst p) then b (fst (src p)) (snd (src p))
    else if same (r, c) (src p) then None
    else b r c.

Definition fens : list jsstring :=
  [ lit "rnbqkbnr/pppppppp/8/8/8/8/PPPPPPPP/RNBQKBNR w KQkq - 0 1";
    lit "rnbqkbnr/pppppppp/8/8/4P3/8/PPPP1PPP/RNBQKBNR b KQkq e3 0 1";
    lit "rnbqkbnr/pppp1ppp/8/4p3/4P3/8/PPPP1PPP/RNBQKBNR w KQkq e6 0 2" ].

Definition next (plies : nat) : list Move :=
  match nth_error line plies with
  | Some p => [as_move p]
  | None => []
  end.

Definition try_move (plies : nat) (from to : jsstring) (promotion : PieceType)
  : MoveOutcome * nat :=
  match nth_error line plies with
  | Some p =>
      if streq from (square (src p)) && streq to (square (dst p))
      then (Returns (Some (as_move p)), S plies)
      else (Returns None, plies)
  | None => (Returns None, plies)
  end.

#[global] Instance engine : RulesEngine nat := {|
  turn plies := if Nat.even plies then White else Black;
  fen plies := nth plies fens [];
  board plies := fold_left play (firstn plies line) start;
  history plies := map as_move (firstn plies line);
  moves := next;
  move := try_move
|}.

End Book.

(** The same book with the manners of chess.js from 1.0.0 on: a move off
    the line is refused by throwing. *)
Module Strict.

Record Game : Type := mkGame { plies : nat }.

Definition invalid_move : jsstring := lit "Invalid move".

Definition try_move (g : Game) (from to : jsstring) (promotion : PieceType)
  : MoveOutcome * Game :=
  match Book.try_move (plies g) from to promotion with
  | (Returns (Some m), after) => (Returns (Some m), mkGame after)
  | _ => (Throws invalid_move, g)
  end.

#[global] Instance throwing_engine : RulesEngine Game := {|
  turn g := turn (plies g);
  fen g := fen (plies g);
  board g := board (plies g);
  history g := history (plies g);
  moves g := moves (plies g);
  move := try_move
|}.

End Strict.

(** A defective engine: the same positions, but [move] refuses every move,
    also the one [moves] lists, by returning [null] or, when [loud], by
    throwing. *)
Module Stubborn.

Record Game : Type := mkGame { plies : nat; loud : bool }.

#[global] Instance refusing_engine : RulesEngine Game := {|
  turn g := turn (plies g);
  fen g := fen (plies g);
  board g := board (plies g);
  history g := history (plies g);
  moves g := moves (plies g);
  move g from to promotion :=
    (if loud g then Throws Strict.invalid_move else Returns None, g)
|}.

End Stubborn.

(** Oracles and a parser for the examples. *)
Module Sample.

(** An oracle that answers the [k]-th call with the [k]-th entry of a script
    and fails afterwards. *)
Definition scripted (script : list Completion) : nat -> jsstring -> Completion :=
  fun k _ => nth k script CallFails.

Definition quoted (s : jsstring) : jsstring := dq ++ s ++ dq.

(** The JSON text [{"from":"f","to":"t"}] *)
Definition object_text (f t : jsstring) : jsstring :=
  lit "{" ++ quoted (lit "from") ++ lit ":" ++ quoted f ++ lit ","
    ++ quoted (lit "to") ++ lit ":" ++ quoted t ++ lit "}".

Fixpoint strip_prefix (p s : jsstring) : option jsstring :=
  match p, s with
  | [], _ => Some s
  | a :: p', b :: s' => if a =? b then strip_prefix p' s' else None
  | _ :: _, [] => None
  end.

(** The code units before the next double quote, and the text after it. *)
Fixpoint until_quote (s : jsstring) : option (jsstring * jsstring) :=
  match s with
  | [] => None
  | c :: t =>
      if c =? 34 then Some ([], t)
      else if c =? 92 then None
      else match until_quote t with
           | Some (w, rest) => Some (c :: w, rest)
           | None => None
           end
  end.

(** [JSON.parse] restricted to the texts [object_text f t] with no escape
    sequence, on which it returns the object with these two string members;
    every other text is refused here. *)
Definition parse_move_object (s : jsstring) : option AiMove :=
  match strip_prefix (lit "{" ++ quoted (lit "from") ++ lit ":" ++ dq) s with
  | None => None
  | Some s1 =>
      match until_quote s1 with
      | None => None
      | Some (f, s2) =>
          match strip_prefix (lit "," ++ quoted (lit "to") ++ lit ":" ++ dq) s2 with
          | None => None
          | Some s3 =>
              match until_quote s3 with
              | None => None
              | Some (t, s4) =>
                  if streq s4 (lit "}") then Some (mkAiMove (MString f) (MString t)) else None
              end
          end
      end
  end.

Definition e5 : jsstring := lit "e5".
Definition e6 : jsstring := lit "e6".
Definition e7 : jsstring := lit "e7".

(** Three bad answers: a failed call, a text that does not parse, and the
    pair e7-e6, which the book does not allow. *)
Definition three_failures : nat -> jsstring -> Completion :=
  scripted [ CallFails;
             Completes (Some (lit "I would play {e5}"));
             Completes (Some (object_text e7 e6)) ].

(** Two bad answers and then the book move e7-e5. *)
Definition third_time_lucky : nat -> jsstring -> Completion :=
  scripted [ CallFails;
             Completes (Some (lit "I would play {e5}"));
             Completes (Some (lit "  " ++ object_text e7 e5 ++ nl)) ].

(** The book move, every time. *)
Definition always_e7e5 : nat -> jsstring -> Completion :=
  fun _ _ => Completes (Some (object_text e7 e5)).

End Sample.

(** ** The server *)

Section Server.

Context {Chess : Type} `{RulesEngine Chess}.

(** The contract of [chess.move] that the handlers rely on: a refused move,
    however it is refused, leaves the game as it was. *)
Definition refusal_changes_nothing : Prop :=
  forall (c : Chess) (from to : jsstring) (promotion : PieceType),
    accepted (fst (move c from to promotion)) = None ->
    snd (move c from to promotion) = c.

(** [chess.move] refuses a move whose ends are not both square names. *)
Definition only_squares_move : Prop :=
  forall (c : Chess) (from to : jsstring) (promotion : PieceType),
    is_square from = false \/ is_square to = false ->
    accepted (fst (move c from to promotion)) = None.

(** The manners of chess.js before 1.0.0: [chess.move] never throws, it
    refuses by returning [null]. *)
Definition refuses_by_null : Prop :=
  forall (c : Chess) (from to : jsstring) (promotion : PieceType) (message : jsstring),
    fst (move c from to promotion) <> Throws message.

(** The oracle: the completion of the [k]-th call of a request (counted from
    0) on the user prompt it is given. *)
Variable openai : nat -> jsstring -> Completion.

(** [JSON.parse]; [None] when it throws. *)
Variable JSON_parse : jsstring -> option AiMove.

Definition unicodeMap (t : PieceType) (c : Color) : jsstring :=
  match t, c with
  | Pawn, Black => [9823] | Rook, Black => [9820] | Knight, Black => [9822]
  | Bishop, Black => [9821] | Queen, Black => [9819] | King, Black => [9818]
  | Pawn, White => [9817] | Rook, White => [9814] | Knight, White => [9816]
  | Bishop, White => [9815] | Queen, White => [9813] | King, White => [9812]
  end.

(** [getUnicodeBoard()], lines 32-55 *)
Definition getUnicodeBoard (chess : Chess) : list (list jsstring) :=
  map (fun r =>
         map (fun c =>
                match board chess r c with
                | None => lit "."
                | Some cell => unicodeMap (p_type cell) (p_color cell)
                end)
             (seq 0 8))
      (seq 0 8).

Definition currentPlayer (chess : Chess) : jsstring :=
  if Color_eqb (turn chess) White then lit "white" else lit "black".

(** The object every successful response carries. *)
Definition view (chess : Chess) : View :=
  mkView (getUnicodeBoard chess) (currentPlayer chess) (history chess).

(** POST /api/move, lines 84-108.  The call of [chess.move] at line 98 is
    not inside a [try]: when it throws, the exception leaves the handler and
    Express answers with status 500. *)
Definition post_move (chess : Chess) (req : MoveRequest) : Response * Chess :=
  match rq_from req, rq_to req with
  | Some from, Some to =>
      if negb (Color_eqb (turn chess) White) then
        (bad_request (lit "It is not White" ++ rsquo ++ lit "s turn."), chess)
      else
        let fromSquare := coordsToAlgebraic (row from) (col from) in
        let toSquare := coordsToAlgebraic (row to) (col to) in
        let (moveResult, chess') := move chess fromSquare toSquare Queen in
        match moveResult with
        | Returns None => (bad_request (lit "Illegal move."), chess')
        | Returns (Some _) => (ok (view chess'), chess')
        | Throws message => (server_error message, chess')
        end
  | _, _ => (bad_request (lit "Missing from/to in request body."), chess)
  end.

(** [buildOpenAIPrompt()], lines 177-223 *)
Definition ranks : list jsstring :=
  [lit "8"; lit "7"; lit "6"; lit "5"; lit "4"; lit "3"; lit "2"; lit "1"].

Definition visualBoard (rows : list (list jsstring)) : jsstring :=
  fold_left
    (fun acc r => acc ++ nth r ranks [] ++ lit " | " ++ join (lit "  ") (nth r rows []) ++ nl)
    (seq 0 8)
    (lit "Current Board (Top=Black, Bottom=White):" ++ nl)
  ++ lit "    a  b  c  d  e  f  g  h" ++ nl.

Definition buildOpenAIPrompt (chess : Chess) : jsstring :=
  let fen := fen chess in
  let board := getUnicodeBoard chess in
  let allMoves := history chess in
  let joined := join nl (recentMoves allMoves) in
  nl ++ lit "FEN: " ++ fen ++ nl
  ++ nl
  ++ lit "Moves so far (last " ++ Z_toString recentMovesCount ++ lit " moves):" ++ nl
  ++ (match joined with [] => lit "No moves yet." | _ => joined end) ++ nl
  ++ nl
  ++ visualBoard board ++ nl
  ++ nl
  ++ lit "It is currently Black's turn. " ++ nl
  ++ lit "You are an advanced chess AI that MUST provide a strictly legal move for Black in JSON only. " ++ nl
  ++ lit "Your JSON format must be EXACTLY:" ++ nl
  ++ lit "{" ++ nl
  ++ lit "  " ++ dq ++ lit "from" ++ dq ++ lit ":" ++ dq ++ lit "<square>" ++ dq ++ lit "," ++ nl
  ++ lit "  " ++ dq ++ lit "to" ++ dq ++ lit ":" ++ dq ++ lit "<square>" ++ dq ++ nl
  ++ lit "}" ++ nl
  ++ lit "No extra fields, no extra text. If no legal moves exist, output:" ++ nl
  ++ lit "{" ++ nl
  ++ lit "  " ++ dq ++ lit "from" ++ dq ++ lit ":" ++ dq ++ lit "none" ++ dq ++ lit "," ++ nl
  ++ lit "  " ++ dq ++ lit "to" ++ dq ++ lit ":" ++ dq ++ lit "none" ++ dq ++ nl
  ++ lit "}" ++ nl
  ++ lit "Always avoid illegal or repeated moves. Be as challenging as possible." ++ nl.

(** [callOpenAiForMove(userPrompt)], lines 229-269, as the [k]-th call of the
    request.  Every exception raised in the [try] block is caught there. *)
Definition callOpenAiForMove (k : nat) (userPrompt : jsstring) : option jsstring :=
  match openai k userPrompt with
  | CallFails => None
  | Completes None => None
  | Completes (Some content) =>
      let aiResponse := Extract.trim content in
      match Extract.match_object aiResponse with
      | Some jsonString => Some jsonString
      | None => None
      end
  end.

(** [possible.some(m => m.from === aiMove.from && m.to === aiMove.to)] *)
Definition found_in (possible : list Move) (aiMove : AiMove) : bool :=
  existsb (fun m => member_is (m_from m) (ai_from aiMove) && member_is (m_to m) (ai_to aiMove))
          possible.

(** The state of the handler when the [while] loop is left. *)
Record LoopEnd : Type := mkLoopEnd {
  validMove : option Move;
  chess_end : Chess;
  prompt_end : jsstring;
  exchanges : list Exchange
}.

(** The [while (retries > 0)] loop, lines 126-158.  Every path through the
    body either leaves the loop or decrements [retries], so the loop is a
    recursion on [retries].  [log] holds the round trips made so far.  The
    call of [chess.move] at line 143 is inside the [try] of line 135: when it
    throws, the [catch] of lines 153-156 appends the note written for a
    parse error. *)
Fixpoint retry_loop (retries : nat) (chess : Chess) (prompt : jsstring)
         (log : list Exchange) : LoopEnd :=
  match retries with
  | O => mkLoopEnd None chess prompt log
  | S retries' =>
      let openAiResponse := callOpenAiForMove (List.length log) prompt in
      let log' := log ++ [mkExchange prompt openAiResponse] in
      match openAiResponse with
      | None | Some [] =>
          retry_loop retries' chess (prompt ++ note_empty) log'
      | Some text =>
          match JSON_parse text with
          | Some aiMove =>
              let possible := moves chess in
              let found := found_in possible aiMove in
              if found then
                let (moved, chess') :=
                  move chess (member_text (ai_from aiMove)) (member_text (ai_to aiMove)) Queen in
                match moved with
                | Returns (Some m) => mkLoopEnd (Some m) chess' prompt log'
                | Returns None => retry_loop retries' chess' prompt log'
                | Throws _ => retry_loop retries' chess' (prompt ++ note_parse) log'
                end
              else
                retry_loop retries' chess (prompt ++ note_illegal aiMove) log'
          | None =>
              retry_loop retries' chess (prompt ++ note_parse) log'
          end
      end
  end.

(** What is wrong with an answer of the oracle in position [chess], if
    anything: [None] or an empty text, a text [JSON.parse] refuses, or a pair
    that is not on the list of legal moves. *)
Definition attempt_fails (chess : Chess) (answer : option jsstring) : Prop :=
  match answer with
  | None => True
  | Some text =>
      match JSON_parse text with
      | None => True
      | Some aiMove => found_in (moves chess) aiMove = false
      end
  end.

(** The corrective note that answers [answer] in position [chess]; a pair
    that is on the list of legal moves gets none, unless [chess.move] throws
    on it, which the loop answers like a parse error. *)
Definition note_for (chess : Chess) (answer : option jsstring) : jsstring :=
  match answer with
  | None | Some [] => note_empty
  | Some text =>
      match JSON_parse text with
      | None => note_parse
      | Some aiMove =>
          if found_in (moves chess) aiMove then
            match fst (move chess (member_text (ai_from aiMove))
                            (member_text (ai_to aiMove)) Queen) with
            | Returns _ => []
            | Throws _ => note_parse
            end
          else note_illegal aiMove
      end
  end.

(** The corrective notes that answer the first [k] round trips of [log], one
    after the other. *)
Definition notes_before (chess : Chess) (log : list Exchange) (k : nat) : jsstring :=
  List.concat (map (fun x => note_for chess (ex_answer x)) (firstn k log)).

(** Every round trip of [log] was made with the prompt [base] followed by the
    notes of all the round trips before it, and [log] holds what the client
    returned for that prompt. *)
Definition cumulative (chess : Chess) (base : jsstring) (log : list Exchange) : Prop :=
  forall k e,
    nth_error log k = Some e ->
    ex_prompt e = base ++ notes_before chess log k
    /\ ex_answer e = callOpenAiForMove k (ex_prompt e).

(** POST /api/ai-move, lines 117-171: the response, the game afterwards and
    the round trips made with the oracle. *)
Definition post_ai_move (chess : Chess) : Response * Chess * list Exchange :=
  if Color_eqb (turn chess) White then
    (bad_request (lit "It is White" ++ rsquo ++ lit "s turn, not AI" ++ rsquo ++ lit "s turn."),
     chess, [])
  else
    let retries := 3%nat in
    let prompt := buildOpenAIPrompt chess in
    let loop := retry_loop retries chess prompt [] in
    match validMove loop with
    | None =>
        (bad_request (lit "AI failed to provide a valid move after multiple attempts."),
         chess_end loop, exchanges loop)
    | Some _ => (ok (view (chess_end loop)), chess_end loop, exchanges loop)
    end.

End Server.

(** ** The remaining routes *)

Section Routes.

Context {Chess : Type} `{RulesEngine Chess}.

(** [new Chess()]: the game at the standard starting position. *)
Variable new_Chess : Chess.

(** GET /api/board, lines 71-77 *)
Definition get_board (chess : Chess) : Response * Chess := (ok (view chess), chess).

(** POST /api/reset, lines 275-282: the live game is replaced. *)
Definition post_reset (chess : Chess) : Response * Chess :=
  let chess := new_Chess in
  (ok (view chess), chess).

End Routes.

(** ** The browser client *)

Module Client.

(** [parseInt(s)] without a radix: leading white space is skipped, a sign is
    read, a [0x] or [0X] prefix selects base 16, and the longest run of
    digits is the value; [NaN] when there is no digit.  (Exact while the
    value is a safe integer.) *)
Definition digit_value (radix c : Z) : option Z :=
  let v :=
    if (48 <=? c) && (c <=? 57) then Some (c - 48)
    else if (97 <=? c) && (c <=? 122) then Some (c - 87)
    else if (65 <=? c) && (c <=? 90) then Some (c - 55)
    else None in
  match v with
  | Some d => if d <? radix then Some d else None
  | None => None
  end.

Fixpoint digits (radix : Z) (s : jsstring) (acc : option Z) : option Z :=
  match s with
  | [] => acc
  | c :: t =>
      match digit_value radix c with
      | Some d => digits radix t (Some (match acc with Some a => a * radix + d | None => d end))
      | None => acc
      end
  end.

Definition parseInt (s : jsstring) : number :=
  let S := Extract.trimStart s in
  let (sign, S) :=
    match S with
    | c :: t => if c =? 45 then (-1, t) else if c =? 43 then (1, t) else (1, S)
    | [] => (1, S)
    end in
  let (R, S) :=
    match S with
    | a :: b :: t => if (a =? 48) && ((b =? 120) || (b =? 88)) then (16, t) else (10, S)
    | _ => (10, S)
    end in
  match digits R S None with
  | Some v => Int (sign * v)
  | None => NaN
  end.

(** A square of the board as the page holds it: its classes, its text, the
    two data attributes and the outline style. *)
Record SquareDiv : Type := mkSquareDiv {
  classList : list jsstring;
  textContent : jsstring;
  data_row : jsstring;
  data_col : jsstring;
  outline : jsstring
}.

(** [selectedSquare]: [{ row, col }] *)
Record Selected : Type := mkSelected { s_row : number; s_col : number }.

(** What the client keeps: the children of [#chessboard], the text and the
    background colour of [#status], and the variable [selectedSquare]. *)
Record Page : Type := mkPage {
  chessboard : list SquareDiv;
  statusText : jsstring;
  statusBackground : jsstring;
  selectedSquare : option Selected
}.

(** The square [renderBoard] creates for [board[row][col]]; an [undefined]
    cell is not ['.'], and assigning it to [textContent] leaves the text
    empty. *)
Definition new_square (row col : nat) (piece : option jsstring) : SquareDiv :=
  mkSquareDiv
    [lit "square"; if Nat.even (row + col) then lit "light" else lit "dark"]
    (match piece with
     | Some p => if streq p (lit ".") then [] else p
     | None => []
     end)
    (Z_toString (Z.of_nat row))
    (Z_toString (Z.of_nat col))
    [].

(** The two loops of [renderBoard] over the rows still to do: the squares
    appended so far, and whether the loops ran to their end.  Reading a cell
    of a missing row throws, before the square of that cell is appended. *)
Fixpoint render_rows (board : list (list jsstring)) (rows : list nat)
         (appended : list SquareDiv) : list SquareDiv * bool :=
  match rows with
  | [] => (appended, true)
  | row :: rest =>
      match nth_error board row with
      | None => (appended, false)
      | Some cells =>
          render_rows board rest
            (appended ++ map (fun col => new_square row col (nth_error cells col)) (seq 0 8))
      end
  end.

(** [renderBoard(board)], lines 28-55; [None] is an [undefined] argument.
    The flag is false when the function throws. *)
Definition renderBoard (board : option (list (list jsstring))) (page : Page) : Page * bool :=
  let emptied := mkPage [] (statusText page) (statusBackground page) (selectedSquare page) in
  match board with
  | None => (emptied, false)
  | Some rows =>
      let (squares, completed) := render_rows rows (seq 0 8) [] in
      (mkPage squares (statusText page) (statusBackground page) (selectedSquare page), completed)
  end.

(** [updateStatus(currentPlayer)], lines 158-167 *)
Definition updateStatus (page : Page) (currentPlayer : option jsstring) : Page :=
  let white :=
    match currentPlayer with
    | Some p => streq p (lit "white")
    | None => false
    end in
  if white then
    mkPage (chessboard page) (lit "It is White" ++ rsquo ++ lit "s turn (your move).")
           (lit "green") (selectedSquare page)
  else
    mkPage (chessboard page) (lit "It is Black" ++ rsquo ++ lit "s turn (AI is thinking).")
           (lit "yellow") (selectedSquare page).

(** [showError(msg)], lines 172-176 *)
Definition showError (page : Page) (msg : jsstring) : Page :=
  mkPage (chessboard page) (lit "Error: " ++ msg) (lit "red") (selectedSquare page).

(** [clearSelectionHighlight()], lines 109-114.  The squares of the board
    are the only elements the client gives the class [square]. *)
Definition clearSelectionHighlight (page : Page) : Page :=
  mkPage
    (map (fun sq =>
            if existsb (streq (lit "square")) (classList sq)
            then mkSquareDiv (classList sq) (textContent sq) (data_row sq) (data_col sq)
                             (lit "none")
            else sq)
         (chessboard page))
    (statusText page) (statusBackground page) (selectedSquare page).

Fixpoint update_at {A : Type} (i : nat) (f : A -> A) (l : list A) : list A :=
  match l, i with
  | [], _ => []
  | x :: t, O => f x :: t
  | x :: t, S j => x :: update_at j f t
  end.

(** [onSquareClick(e)], lines 60-80, for a click on the [i]-th square of the
    board: the page afterwards, and the arguments of [postUserMove] when it
    is called. *)
Definition onSquareClick (page : Page) (i : nat) : Page * option (Selected * Selected) :=
  match nth_error (chessboard page) i with
  | None => (page, None)
  | Some clickedSquare =>
      let row := parseInt (data_row clickedSquare) in
      let col := parseInt (data_col clickedSquare) in
      match selectedSquare page with
      | None =>
          match Extract.trim (textContent clickedSquare) with
          | [] => (page, None)
          | _ =>
              (mkPage
                 (update_at i
                    (fun sq => mkSquareDiv (classList sq) (textContent sq) (data_row sq)
                                           (data_col sq) (lit "2px solid red"))
                    (chessboard page))
                 (statusText page) (statusBackground page)
                 (Some (mkSelected row col)),
               None)
          end
      | Some selected =>
          let from := selected in
          let to := mkSelected row col in
          let page := clearSelectionHighlight page in
          (mkPage (chessboard page) (statusText page) (statusBackground page) None,
           Some (from, to))
      end
  end.

(** The body [JSON.stringify({ from, to })] as the server reads it.  [NaN]
    is written as [null], which the request model does not cover. *)
Definition sent_coords (s : Selected) : option Coords :=
  match s_row s, s_col s with
  | Int r, Int c => Some (mkCoords (Num r) (Num c))
  | _, _ => None
  end.

Definition sent_request (from to : Selected) : option MoveRequest :=
  match sent_coords from, sent_coords to with
  | Some f, Some t => Some (mkMoveRequest (Some f) (Some t))
  | _, _ => None
  end.

(** How a [fetch] chain ends: it is rejected (network failure, a body that
    is not JSON) with an error message, or it delivers the parsed body. *)
Inductive Reply : Type :=
| Rejected (message : jsstring)
| Json (data : Body).

(** [data.error], [data.board] and [data.currentPlayer] of a parsed body.
    (An HTML page does not parse: it reaches the client as a rejected chain,
    see [reply_of].) *)
Definition data_error (data : Body) : option jsstring :=
  match data with
  | ErrorBody error => Some error
  | ViewBody _ | ErrorPage _ => None
  end.

Definition data_board (data : Body) : option (list (list jsstring)) :=
  match data with
  | ErrorBody _ | ErrorPage _ => None
  | ViewBody v => Some (v_board v)
  end.

Definition data_currentPlayer (data : Body) : option jsstring :=
  match data with
  | ErrorBody _ | ErrorPage _ => None
  | ViewBody v => Some (v_currentPlayer v)
  end.

(** What [fetch(...).then(res => res.json())] makes of a response of the
    server: the parsed body, or a rejection with the browser's message for
    a body that is not JSON. *)
Definition reply_of (not_json_message : jsstring) (answer : Response) : Reply :=
  match body answer with
  | ErrorPage _ => Rejected not_json_message
  | data => Json data
  end.

Section Replies.

(** The message of the TypeError the browser raises when [renderBoard] reads
    a member of [undefined]. *)
Variable type_error_message : jsstring.

(** [renderBoard(data.board); updateStatus(data.currentPlayer);] inside a
    chain whose [catch] shows the error with the text [context] before it. *)
Definition render_then_status (context : jsstring) (page : Page) (data : Body) : Page :=
  let (page, completed) := renderBoard (data_board data) page in
  if completed then updateStatus page (data_currentPlayer data)
  else showError page (context ++ type_error_message).

(** The end of the chain in [fetchBoard], lines 12-23. *)
Definition fetchBoard_reply (page : Page) (reply : Reply) : Page :=
  match reply with
  | Rejected message => showError page (lit "Error fetching board: " ++ message)
  | Json data => render_then_status (lit "Error fetching board: ") page data
  end.

(** The end of the chain in [resetGame], lines 139-150. *)
Definition resetGame_reply (page : Page) (reply : Reply) : Page :=
  match reply with
  | Rejected message => showError page (lit "Error resetting game: " ++ message)
  | Json data => render_then_status (lit "Error resetting game: ") page data
  end.

(** [if (data.error) showError(data.error) else { render; status }] *)
Definition error_or_render (context : jsstring) (page : Page) (data : Body) : Page :=
  match data_error data with
  | Some (c :: error) => showError page (c :: error)
  | _ => render_then_status context page data
  end.

(** The end of the chain in [postUserMove], lines 85-104. *)
Definition postUserMove_reply (page : Page) (reply : Reply) : Page :=
  match reply with
  | Rejected message => showError page (lit "Error posting user move: " ++ message)
  | Json data => error_or_render (lit "Error posting user move: ") page data
  end.

(** The end of the chain in [aiMove], lines 119-134. *)
Definition aiMove_reply (page : Page) (reply : Reply) : Page :=
  match reply with
  | Rejected message => showError page (lit "Error in AI move: " ++ message)
  | Json data => error_or_render (lit "Error in AI move: ") page data
  end.

End Replies.

End Client.

(** * Properties *)

(** ** Strings *)

Lemma streq_true_iff (s1 s2 : jsstring) : streq s1 s2 = true <-> s1 = s2.
Proof.
  revert s2; induction s1 as [|c1 t1 IH]; intros [|c2 t2]; simpl;
    try (split; [discriminate | discriminate]); try tauto.
  rewrite andb_true_iff, Z.eqb_eq, IH.
  split; [intros [-> ->]; reflexivity | intros E; inversion E; auto].
Qed.

Lemma lit_inj (a b : string) : lit a = lit b -> a = b.
Proof.
  unfold lit; revert b; induction a as [|x a IH]; intros [|y b]; simpl;
    try discriminate; auto.
  intros E; inversion E as [[E1 E2]].
  apply N2Z.inj in E1.
  f_equal; [|apply IH; exact E2].
  rewrite <- (ascii_N_embedding x), <- (ascii_N_embedding y), E1; reflexivity.
Qed.

Lemma to_int_parses (a : Z) :
  NilZero.int_of_string (NilZero.string_of_int (Z.to_int a)) = Some (Z.to_int a).
Proof.
  apply NilZero.isi; destruct a; simpl; try discriminate;
    intros E; inversion E as [E']; exact (DecimalPos.Unsigned.to_uint_nonnil _ E').
Qed.

Lemma Z_toString_inj (a b : Z) : Z_toString a = Z_toString b -> a = b.
Proof.
  unfold Z_toString; intros E; apply lit_inj in E.
  apply DecimalZ.to_int_inj.
  pose proof (to_int_parses a) as Pa; pose proof (to_int_parses b) as Pb.
  rewrite E in Pa; congruence.
Qed.

(** ** The pattern match of the oracle client *)

Module ExtractFacts.
Import Extract.

Lemma white_is_no_brace (c : Z) : is_white c = true -> c <> lbrace /\ c <> rbrace.
Proof.
  unfold is_white, lbrace, rbrace; intros W; split; intros ->; discriminate W.
Qed.

Lemma lazy_tail_None (s : jsstring) : lazy_tail s = None <-> ~ In rbrace s.
Proof.
  induction s as [|c t IH]; cbn [lazy_tail In].
  - tauto.
  - destruct (Z.eqb_spec c rbrace) as [->|N].
    + split; [discriminate | intros X; exfalso; apply X; left; reflexivity].
    + destruct (lazy_tail t) eqn:L; cbn [option_map].
      * split; [discriminate|].
        intros X; exfalso.
        assert (Y : ~ In rbrace t) by (intros I; apply X; right; exact I).
        apply IH in Y; discriminate Y.
      * split; [|reflexivity].
        intros _ [E|I]; [congruence | revert I; apply IH; reflexivity].
Qed.

Lemma lazy_tail_stops (mid post : jsstring) :
  ~ In rbrace mid -> lazy_tail (mid ++ rbrace :: post) = Some (mid ++ [rbrace]).
Proof.
  induction mid as [|c t IH]; cbn [app lazy_tail In]; intros N.
  - rewrite Z.eqb_refl; reflexivity.
  - destruct (Z.eqb_spec c rbrace) as [E|_]; [exfalso; apply N; left; exact E|].
    rewrite IH by (intros I; apply N; right; exact I); reflexivity.
Qed.

Lemma lazy_tail_Some (s m : jsstring) :
  lazy_tail s = Some m ->
  exists mid post, s = mid ++ rbrace :: post /\ m = mid ++ [rbrace] /\ ~ In rbrace mid.
Proof.
  revert m; induction s as [|c t IH]; cbn [lazy_tail]; intros m; [discriminate|].
  destruct (Z.eqb_spec c rbrace) as [->|N].
  - intros E; inversion E; subst; exists [], t; cbn [app In]; auto.
  - destruct (lazy_tail t) as [m'|] eqn:L; cbn [option_map]; [|discriminate].
    intros E; inversion E; subst.
    destruct (IH m' eq_refl) as (mid & post & -> & -> & NI).
    exists (c :: mid), post; cbn [app In]; repeat split; auto.
    intros [X|X]; [congruence | exact (NI X)].
Qed.

Lemma match_object_skips (pre s : jsstring) :
  ~ In lbrace pre -> match_object (pre ++ s) = match_object s.
Proof.
  induction pre as [|c t IH]; cbn [app match_object match_here In]; intros N; [reflexivity|].
  destruct (Z.eqb_spec c lbrace) as [E|_]; [exfalso; apply N; left; exact E|].
  apply IH; intros I; apply N; right; exact I.
Qed.

Lemma match_object_Some (s m : jsstring) : match_object s = Some m -> first_object s m.
Proof.
  revert m; induction s as [|c t IH]; intros m; [discriminate|].
  cbn [match_object match_here].
  destruct (Z.eqb_spec c lbrace) as [->|N].
  - destruct (lazy_tail t) as [m'|] eqn:L; cbn [option_map].
    + intros E; inversion E; subst.
      destruct (lazy_tail_Some _ _ L) as (mid & post & -> & -> & NI).
      exists [], mid, post; cbn [app In]; rewrite <- app_assoc; cbn [app]; auto.
    + intros E; exfalso.
      apply IH in E; destruct E as (pre & mid & post & -> & -> & _ & _).
      apply lazy_tail_None in L; apply L.
      rewrite in_app_iff; right; cbn [app In]; right.
      rewrite in_app_iff; left; rewrite in_app_iff; right; left; reflexivity.
  - intros E; apply IH in E; destruct E as (pre & mid & post & -> & -> & NP & NM).
    exists (c :: pre), mid, post; cbn [app In]; repeat split; auto.
    intros [X|X]; [congruence | exact (NP X)].
Qed.

Lemma match_object_first (s m : jsstring) : match_object s = Some m <-> first_object s m.
Proof.
  split; [apply match_object_Some|].
  intros (pre & mid & post & -> & -> & NP & NM).
  rewrite match_object_skips by exact NP.
  cbn [app match_object match_here]; rewrite Z.eqb_refl.
  rewrite <- app_assoc; cbn [app].
  rewrite lazy_tail_stops by exact NM; reflexivity.
Qed.

Lemma match_object_None (s : jsstring) : match_object s = None <-> ~ has_object s.
Proof.
  split.
  - intros E (pre & mid & post & ->); revert E.
    induction pre as [|c t IH]; cbn [app match_object match_here].
    + rewrite Z.eqb_refl.
      destruct (lazy_tail (mid ++ rbrace :: post)) eqn:L; [discriminate|].
      apply lazy_tail_None in L; exfalso; apply L.
      rewrite in_app_iff; right; left; reflexivity.
    + destruct (c =? lbrace); [destruct (lazy_tail _); [discriminate|]|]; exact IH.
  - intros N; destruct (match_object s) as [m|] eqn:E; [|reflexivity].
    exfalso; apply N.
    apply match_object_Some in E; destruct E as (pre & mid & post & -> & -> & _).
    exists pre, mid, post; cbn [app]; rewrite <- app_assoc; reflexivity.
Qed.

(** Trimming removes no code unit that the pattern can use. *)
Lemma lazy_tail_trimEnd (s : jsstring) : lazy_tail (trimEnd s) = lazy_tail s.
Proof.
  induction s as [|c t IH]; [reflexivity|].
  cbn [trimEnd lazy_tail].
  destruct (trimEnd t) as [|d t'] eqn:T.
  - rewrite <- IH; cbn [lazy_tail].
    destruct (is_white c) eqn:W.
    + destruct (white_is_no_brace c W) as [_ NR].
      destruct (Z.eqb_spec c rbrace); [contradiction | reflexivity].
    + cbn [lazy_tail]; destruct (c =? rbrace); reflexivity.
  - cbn [lazy_tail]; rewrite <- IH; reflexivity.
Qed.

Lemma match_object_trimEnd (s : jsstring) : match_object (trimEnd s) = match_object s.
Proof.
  induction s as [|c t IH]; [reflexivity|].
  cbn [trimEnd].
  destruct (trimEnd t) as [|d t'] eqn:T.
  - cbn [match_object match_here].
    rewrite <- IH, <- (lazy_tail_trimEnd t), T.
    destruct (is_white c) eqn:W.
    + destruct (white_is_no_brace c W) as [NL _].
      destruct (Z.eqb_spec c lbrace); [contradiction | reflexivity].
    + cbn; destruct (c =? lbrace); reflexivity.
  - cbn [match_object match_here].
    rewrite <- IH, <- (lazy_tail_trimEnd t), T; reflexivity.
Qed.

Lemma match_object_trimStart (s : jsstring) : match_object (trimStart s) = match_object s.
Proof.
  induction s as [|c t IH]; [reflexivity|].
  cbn [trimStart].
  destruct (is_white c) eqn:W; [|reflexivity].
  rewrite IH; cbn [match_object match_here].
  destruct (white_is_no_brace c W) as [NL _].
  destruct (Z.eqb_spec c lbrace); [contradiction | reflexivity].
Qed.

Lemma match_object_trim (s : jsstring) : match_object (trim s) = match_object s.
Proof. unfold trim; rewrite match_object_trimEnd; apply match_object_trimStart. Qed.

End ExtractFacts.


(** ** Coordinate translation *)

Lemma single_digit (n r : Z) : Z_toString n = [r] -> 49 <= r <= 56 -> n = r - 48.
Proof.
  intros E R.
  assert (C : r = 49 \/ r = 50 \/ r = 51 \/ r = 52 \/ r = 53 \/ r = 54 \/ r = 55 \/ r = 56)
    by lia.
  apply Z_toString_inj; rewrite E.
  destruct C as [->|[->|[->|[->|[->|[->|[->| ->]]]]]]]; reflexivity.
Qed.

Lemma in_range_iff (row col : Z) :
  in_range row col = true <-> 0 <= row <= 7 /\ 0 <= col <= 7.
Proof. unfold in_range; rewrite !andb_true_iff, !Z.leb_le; lia. Qed.

Lemma coordsToAlgebraic_Num (row col : Z) :
  coordsToAlgebraic (Num row) (Num col) = ((97 + col) mod 65536) :: Z_toString (8 - row).
Proof. reflexivity. Qed.

Lemma coordsToAlgebraic_in_range (row col : Z) :
  0 <= row <= 7 -> 0 <= col <= 7 ->
  coordsToAlgebraic (Num row) (Num col) = [97 + col; 48 + (8 - row)].
Proof.
  intros Hr Hc.
  assert (R : row = 0 \/ row = 1 \/ row = 2 \/ row = 3 \/ row = 4 \/ row = 5 \/ row = 6 \/ row = 7)
    by lia.
  assert (C : col = 0 \/ col = 1 \/ col = 2 \/ col = 3 \/ col = 4 \/ col = 5 \/ col = 6 \/ col = 7)
    by lia.
  destruct R as [->|[->|[->|[->|[->|[->|[->| ->]]]]]]];
    destruct C as [->|[->|[->|[->|[->|[->|[->| ->]]]]]]]; reflexivity.
Qed.

(** C8. Inside [0,7]x[0,7] the translator names the square whose file letter
    is 'a' plus [col] (code unit 97 + col) and whose rank digit is [8 - row]
    (code unit 48 + (8 - row)); the four corners are a8, h1, h8 and a1. *)
Theorem coordsToAlgebraic_names_square :
  (forall row col : Z, 0 <= row <= 7 -> 0 <= col <= 7 ->
     coordsToAlgebraic (Num row) (Num col) = [97 + col; 48 + (8 - row)])
  /\ coordsToAlgebraic (Num 0) (Num 0) = lit "a8"
  /\ coordsToAlgebraic (Num 7) (Num 7) = lit "h1"
  /\ coordsToAlgebraic (Num 0) (Num 7) = lit "h8"
  /\ coordsToAlgebraic (Num 7) (Num 0) = lit "a1".
Proof.
  split; [exact coordsToAlgebraic_in_range | repeat split; reflexivity].
Qed.

(** C7, as the code has it.  The translator has no range check and returns a
    string for every pair of integers.  Inside [0,7]x[0,7] the string is the
    square the checked translator of the specification names.  With [row]
    outside [0,7], and with [col] outside [0,7] (and within one turn of the
    16-bit code unit), the checked translator fails but the code returns a
    string, which is not a square name. *)
Theorem coordsToAlgebraic_has_no_range_check (row col : Z) :
  (in_range row col = true ->
     toAlgebraic_checked row col = Some (coordsToAlgebraic (Num row) (Num col))
     /\ is_square (coordsToAlgebraic (Num row) (Num col)) = true)
  /\ (row < 0 \/ 7 < row ->
        toAlgebraic_checked row col = None
        /\ is_square (coordsToAlgebraic (Num row) (Num col)) = false)
  /\ ((col < 0 \/ 7 < col) /\ -65529 < col < 65536 ->
        toAlgebraic_checked row col = None
        /\ is_square (coordsToAlgebraic (Num row) (Num col)) = false).
Proof.
  split; [|split].
  - intros I; unfold toAlgebraic_checked; rewrite I.
    apply in_range_iff in I; destruct I as [Hr Hc].
    rewrite (coordsToAlgebraic_in_range row col Hr Hc).
    split; [reflexivity|].
    unfold is_square; rewrite !andb_true_iff, !Z.leb_le; lia.
  - intros O; split.
    + unfold toAlgebraic_checked.
      destruct (in_range row col) eqn:I; [apply in_range_iff in I; lia | reflexivity].
    + rewrite coordsToAlgebraic_Num.
      destruct (Z_toString (8 - row)) as [|r [|? ?]] eqn:E; try reflexivity.
      unfold is_square.
      destruct ((49 <=? r) && (r <=? 56)) eqn:D.
      * apply andb_true_iff in D; rewrite !Z.leb_le in D.
        apply single_digit in E; lia.
      * rewrite <- andb_assoc, D; apply andb_false_r.
  - intros [O B]; split.
    + unfold toAlgebraic_checked.
      destruct (in_range row col) eqn:I; [apply in_range_iff in I; lia | reflexivity].
    + rewrite coordsToAlgebraic_Num.
      destruct (Z_toString (8 - row)) as [|r [|? ?]]; try reflexivity.
      unfold is_square.
      assert (F : (97 <=? (97 + col) mod 65536) && ((97 + col) mod 65536 <=? 104) = false).
      { apply andb_false_iff; rewrite !Z.leb_gt.
        destruct (Z_lt_le_dec (97 + col) 0) as [Neg|Pos].
        - replace ((97 + col) mod 65536) with (97 + col + 65536)
            by (apply Z.mod_unique with (q := -1); lia).
          lia.
        - destruct (Z_lt_le_dec (97 + col) 65536) as [Lo|Hi].
          + rewrite Z.mod_small by lia; lia.
          + replace ((97 + col) mod 65536) with (97 + col - 65536)
              by (apply Z.mod_unique with (q := 1); lia).
            lia. }
      rewrite F; reflexivity.
Qed.

(** ** The list of recent moves *)

Lemma move_line_numbered (total : Z) (m : Move) (index : nat) :
  move_line total m index = numbered_line (total - 8 + Z.of_nat index + 1) m.
Proof. reflexivity. Qed.

Lemma mapi_from_ext {A B : Type} (f g : A -> nat -> B) (l : list A) (i : nat) :
  (forall x k, (i <= k)%nat -> f x k = g x k) -> mapi_from i f l = mapi_from i g l.
Proof.
  revert i; induction l as [|x t IH]; intros i E; cbn [mapi_from]; [reflexivity|].
  rewrite (E x i (Nat.le_refl i)); f_equal.
  apply IH; intros y k L; apply E; lia.
Qed.

Lemma mapi_from_length {A B : Type} (f : A -> nat -> B) (l : list A) (i : nat) :
  List.length (mapi_from i f l) = List.length l.
Proof. revert i; induction l; intros i; cbn [mapi_from List.length]; auto. Qed.

Lemma recentMoves_slice (allMoves : list Move) :
  recentMoves allMoves
  = mapi_from 0 (move_line (Z.of_nat (List.length allMoves)))
              (skipn (List.length allMoves - 8) allMoves).
Proof.
  unfold recentMoves, recentMovesCount.
  replace (Z.to_nat (Z.max 0 (Z.of_nat (List.length allMoves) - 8)))
    with (List.length allMoves - 8)%nat by lia.
  reflexivity.
Qed.

(** The list always holds the last [min 8 total] moves, oldest first. *)
Lemma recentMoves_length (allMoves : list Move) :
  List.length (recentMoves allMoves) = Nat.min 8 (List.length allMoves).
Proof. rewrite recentMoves_slice, mapi_from_length, length_skipn; lia. Qed.

(** From the eighth move on, the numbers are the true move numbers. *)
Lemma recentMoves_numbers_when_full (allMoves : list Move) :
  (8 <= List.length allMoves)%nat -> recentMoves allMoves = recentMoves_true allMoves.
Proof.
  intros L; rewrite recentMoves_slice; unfold recentMoves_true.
  apply mapi_from_ext; intros m k _.
  rewrite move_line_numbered; f_equal; lia.
Qed.

Lemma Z_toString_nonpositive (n : Z) :
  n <= 0 -> exists c rest, Z_toString n = c :: rest /\ (c = 45 \/ c = 48).
Proof.
  destruct n as [|p|p]; intros L; [| lia |].
  - exists 48, []; split; [reflexivity | right; reflexivity].
  - exists 45, (lit (NilZero.string_of_uint (Pos.to_uint p))).
    split; [reflexivity | left; reflexivity].
Qed.

(** With one to seven moves played, the first line carries the number
    [total - 7], which is zero or negative, where the true number is 1. *)
Lemma recentMoves_numbers_when_short (allMoves : list Move) :
  (0 < List.length allMoves < 8)%nat ->
  exists m rest,
    recentMoves allMoves = numbered_line (Z.of_nat (List.length allMoves) - 7) m :: rest
    /\ recentMoves_true allMoves <> recentMoves allMoves.
Proof.
  intros L; rewrite recentMoves_slice; unfold recentMoves_true.
  replace (List.length allMoves - 8)%nat with 0%nat by lia.
  destruct allMoves as [|m t]; [cbn in L; lia|].
  cbn [skipn mapi_from].
  exists m; eexists; split.
  - rewrite move_line_numbered; f_equal; f_equal; lia.
  - rewrite move_line_numbered.
    destruct (Z_toString_nonpositive (Z.of_nat (List.length (m :: t)) - 8 + Z.of_nat 0 + 1))
      as (c & rest & S & C); [cbn [List.length] in *; lia|].
    unfold numbered_line; rewrite S.
    change (Z_toString (Z.of_nat 0 + Z.of_nat 0 + 1)) with [49].
    intros E; injection E as E1 _; lia.
Qed.

(** C6, at the first turn of the oracle.  After 1. e4 the history holds one
    move, and the prompt lists it as move -6; its true number is 1. *)
Theorem recentMoves_after_one_move :
  recentMoves (history (Chess := nat) 1%nat)
  = [lit "-6. White moved e2 -> e4"]
  /\ recentMoves_true (history (Chess := nat) 1%nat)
     = [lit "1. White moved e2 -> e4"].
Proof. split; reflexivity. Qed.
(** ** The handlers *)

Section ServerFacts.

Context {Chess : Type} `{RulesEngine Chess}.
Variable openai : nat -> jsstring -> Completion.
Variable JSON_parse : jsstring -> option AiMove.

Lemma callOpenAiForMove_match (k : nat) (userPrompt : jsstring) :
  callOpenAiForMove openai k userPrompt
  = match openai k userPrompt with
    | Completes (Some raw) => Extract.match_object raw
    | _ => None
    end.
Proof.
  unfold callOpenAiForMove.
  destruct (openai k userPrompt) as [|[raw|]]; try reflexivity.
  rewrite ExtractFacts.match_object_trim.
  destruct (Extract.match_object raw); reflexivity.
Qed.

(** C4. One round trip of the Move Oracle Client: when the call fails, or the
    completion has no text to read, [callOpenAiForMove] returns [null]; when
    the completion carries the text [raw], it returns exactly the first text
    of [raw] that the pattern matches (from the first opening brace to the
    earliest closing brace after it), unchanged, and [null] exactly when no
    text of [raw] matches.  It returns in every case. *)
Theorem callOpenAiForMove_contract (k : nat) (userPrompt : jsstring) :
  match openai k userPrompt with
  | CallFails | Completes None => callOpenAiForMove openai k userPrompt = None
  | Completes (Some raw) =>
      (forall m, callOpenAiForMove openai k userPrompt = Some m <-> Extract.first_object raw m)
      /\ (callOpenAiForMove openai k userPrompt = None <-> ~ Extract.has_object raw)
  end.
Proof.
  rewrite callOpenAiForMove_match.
  destruct (openai k userPrompt) as [|[raw|]]; try reflexivity.
  split.
  - intros m; apply ExtractFacts.match_object_first.
  - apply ExtractFacts.match_object_None.
Qed.

(** *** POST /api/move *)

Lemma incomplete_coords_no_square (r c : value) :
  r = Undefined \/ c = Undefined -> is_square (coordsToAlgebraic r c) = false.
Proof.
  intros [-> | ->].
  - destruct c as [|n]; reflexivity.
  - change (coordsToAlgebraic r Undefined)
      with (0 :: numToString (sub (Int 8) (toNumber r))).
    destruct (numToString (sub (Int 8) (toNumber r))) as [|? [|? ?]]; reflexivity.
Qed.

(** How POST /api/move answers, whatever the engine does: a view with
    status 200, an error text with status 400, or, when [chess.move] throws,
    the error page with status 500.  The error texts are never empty, and
    every answer other than a view leaves the game as it was (given that a
    refused [chess.move] changes nothing). *)
Lemma post_move_answers (chess : Chess) (req : MoveRequest) :
  refusal_changes_nothing ->
  match body (fst (post_move chess req)) with
  | ViewBody _ => status (fst (post_move chess req)) = 200
  | ErrorBody error =>
      status (fst (post_move chess req)) = 400
      /\ error <> [] /\ snd (post_move chess req) = chess
  | ErrorPage message =>
      status (fst (post_move chess req)) = 500
      /\ snd (post_move chess req) = chess
      /\ turn chess = White
      /\ exists from to,
           rq_from req = Some from /\ rq_to req = Some to
           /\ fst (move chess (coordsToAlgebraic (row from) (col from))
                        (coordsToAlgebraic (row to) (col to)) Queen) = Throws message
  end.
Proof.
  intros Pure; unfold post_move.
  destruct (rq_from req) as [from|] eqn:F; [destruct (rq_to req) as [to|] eqn:T|];
    try (cbn; repeat split; discriminate).
  destruct (turn chess) eqn:Tn; cbn [Color_eqb negb];
    [|cbn; repeat split; discriminate].
  specialize (Pure chess (coordsToAlgebraic (row from) (col from))
                   (coordsToAlgebraic (row to) (col to)) Queen).
  destruct (move chess _ _ Queen) as [[[m|]|message] chess'] eqn:M;
    cbn [fst snd accepted] in *.
  - reflexivity.
  - cbn; repeat split; [discriminate | apply Pure; reflexivity].
  - cbn; repeat split; [apply Pure; reflexivity|].
    exists from, to; rewrite M; auto.
Qed.

(** The statement of C9 for an engine with the manners of chess.js before
    1.0.0.  When [chess.move] never throws, a request to POST /api/move fails
    exactly when [from] or [to] is missing, it is not White's turn, or the
    engine refuses the move; every failing request is answered with status
    400 and a non-empty error text, and leaves the game as it was (given
    that a refused [chess.move] changes nothing). *)
Lemma post_move_failure_is_atomic (chess : Chess) (req : MoveRequest) :
  refuses_by_null -> refusal_changes_nothing ->
  (status (fst (post_move chess req)) = 400 <->
     rq_from req = None \/ rq_to req = None \/ turn chess <> White
     \/ exists from to,
          rq_from req = Some from /\ rq_to req = Some to
          /\ accepted (fst (move chess (coordsToAlgebraic (row from) (col from))
                                 (coordsToAlgebraic (row to) (col to)) Queen)) = None)
  /\ (status (fst (post_move chess req)) = 400 ->
      exists error,
        body (fst (post_move chess req)) = ErrorBody error
        /\ error <> [] /\ snd (post_move chess req) = chess).
Proof.
  intros Quiet Pure; unfold post_move.
  destruct (rq_from req) as [from|] eqn:F; [destruct (rq_to req) as [to|] eqn:T|].
  - destruct (turn chess) eqn:Tn; cbn [Color_eqb negb].
    + specialize (Pure chess (coordsToAlgebraic (row from) (col from))
                       (coordsToAlgebraic (row to) (col to)) Queen).
      specialize (Quiet chess (coordsToAlgebraic (row from) (col from))
                        (coordsToAlgebraic (row to) (col to)) Queen).
      destruct (move chess _ _ Queen) as [[[m|]|message] chess'] eqn:M;
        cbn [fst snd accepted] in *.
      * split; [split; [discriminate|]|discriminate].
        intros [X|[X|[X|(f & t & Ef & Et & X)]]]; try discriminate; try congruence.
        injection Ef as <-; injection Et as <-.
        rewrite M in X; discriminate X.
      * split.
        -- split; [|reflexivity].
           intros _; right; right; right; exists from, to; rewrite M; auto.
        -- intros _; eexists; split; [reflexivity|].
           split; [discriminate | apply Pure; reflexivity].
      * exfalso; exact (Quiet message eq_refl).
    + split.
      * split; [|reflexivity].
        intros _; right; right; left; discriminate.
      * intros _; eexists; split; [reflexivity|]; split; [discriminate | reflexivity].
  - split.
    + split; [|reflexivity]. intros _; right; left; reflexivity.
    + intros _; eexists; split; [reflexivity|]; split; [discriminate | reflexivity].
  - split.
    + split; [|reflexivity]. intros _; left; reflexivity.
    + intros _; eexists; split; [reflexivity|]; split; [discriminate | reflexivity].
Qed.

(** The guard of POST /api/move only tests that [from] and [to] are present.
    When both are present but a [row] or [col] is missing, and it is White's
    turn, the request passes the guard and one of the two translated strings
    is not a square name.  An engine that refuses such strings is asked to
    move all the same, and the answer is what the handler makes of its
    refusal: the 400 response 'Illegal move.' when it returns [null], the
    500 error page when it throws; never the 400 of the guard.  The game is
    unchanged (given that a refused [chess.move] changes nothing). *)
Lemma post_move_incomplete_coordinates (chess : Chess) (from to : Coords) :
  refusal_changes_nothing -> only_squares_move ->
  turn chess = White ->
  row from = Undefined \/ col from = Undefined \/ row to = Undefined \/ col to = Undefined ->
  (is_square (coordsToAlgebraic (row from) (col from)) = false
   \/ is_square (coordsToAlgebraic (row to) (col to)) = false)
  /\ snd (post_move chess (mkMoveRequest (Some from) (Some to))) = chess
  /\ match fst (move chess (coordsToAlgebraic (row from) (col from))
                     (coordsToAlgebraic (row to) (col to)) Queen) with
     | Returns _ =>
         fst (post_move chess (mkMoveRequest (Some from) (Some to)))
         = bad_request (lit "Illegal move.")
     | Throws message =>
         fst (post_move chess (mkMoveRequest (Some from) (Some to)))
         = server_error message
     end
  /\ bad_request (lit "Illegal move.") <> bad_request (lit "Missing from/to in request body.").
Proof.
  intros Pure Squares Tn Missing.
  assert (NS : is_square (coordsToAlgebraic (row from) (col from)) = false
               \/ is_square (coordsToAlgebraic (row to) (col to)) = false).
  { destruct Missing as [M|[M|[M|M]]];
      [left | left | right | right]; apply incomplete_coords_no_square; auto. }
  split; [exact NS|].
  unfold post_move; cbn [rq_from rq_to]; rewrite Tn; cbn [Color_eqb negb].
  pose proof (Squares chess _ _ Queen NS) as R.
  pose proof (Pure chess _ _ Queen R) as P.
  destruct (move chess _ _ Queen) as [[[m|]|message] chess'];
    cbn [fst snd accepted] in *; subst;
    [discriminate R | |]; (split; [reflexivity | split; [reflexivity | discriminate]]).
Qed.

(** *** POST /api/ai-move *)

(** C3. Called on White's turn, POST /api/ai-move answers at once with a 400
    response that says so; the oracle is not called, no attempt is made and
    the game is unchanged. *)
Theorem ai_move_out_of_turn (chess : Chess) :
  turn chess = White ->
  post_ai_move openai JSON_parse chess
  = (bad_request (lit "It is White" ++ rsquo ++ lit "s turn, not AI" ++ rsquo ++ lit "s turn."),
     chess, [])
  /\ status (fst (fst (post_ai_move openai JSON_parse chess))) = 400.
Proof.
  intros Tn; unfold post_ai_move; rewrite Tn; split; reflexivity.
Qed.

Lemma callOpenAiForMove_nonempty (k : nat) (p text : jsstring) :
  callOpenAiForMove openai k p = Some text -> text <> [].
Proof.
  rewrite callOpenAiForMove_match.
  destruct (openai k p) as [|[raw|]]; try discriminate.
  intros E; apply ExtractFacts.match_object_first in E.
  destruct E as (_ & mid & _ & _ & -> & _); discriminate.
Qed.

(** The loop when every attempt fails: it runs [retries] times, applies no
    move and does not touch the game. *)
Lemma retry_loop_all_fail (retries : nat) (chess : Chess) :
  forall (prompt : jsstring) (log : list Exchange),
    (forall k p, (List.length log <= k < List.length log + retries)%nat ->
                 attempt_fails JSON_parse chess (callOpenAiForMove openai k p)) ->
    validMove (retry_loop openai JSON_parse retries chess prompt log) = None
    /\ chess_end (retry_loop openai JSON_parse retries chess prompt log) = chess
    /\ List.length (exchanges (retry_loop openai JSON_parse retries chess prompt log))
       = (List.length log + retries)%nat.
Proof.
  induction retries as [|r IH]; intros prompt log Bad.
  - cbn; repeat split; lia.
  - assert (Now : attempt_fails JSON_parse chess
                    (callOpenAiForMove openai (List.length log) prompt))
      by (apply Bad; lia).
    assert (Next : forall answer k p,
               (List.length (log ++ [mkExchange prompt answer]) <= k
                < List.length (log ++ [mkExchange prompt answer]) + r)%nat ->
               attempt_fails JSON_parse chess (callOpenAiForMove openai k p)).
    { intros answer k p L; rewrite length_app in L; cbn in L; apply Bad; lia. }
    assert (Len : forall answer,
               (List.length (log ++ [mkExchange prompt answer]) + r
                = List.length log + S r)%nat).
    { intros answer; rewrite length_app; cbn; lia. }
    cbn [retry_loop].
    destruct (callOpenAiForMove openai (List.length log) prompt) as [[|c text]|] eqn:A;
      cbn [attempt_fails] in Now.
    + rewrite <- (Len (Some [])); apply IH, Next.
    + destruct (JSON_parse (c :: text)) as [aiMove|].
      * rewrite Now, <- (Len (Some (c :: text))); apply IH, Next.
      * rewrite <- (Len (Some (c :: text))); apply IH, Next.
    + rewrite <- (Len None); apply IH, Next.
Qed.

(** C1. Entered on Black's turn with an oracle whose three answers are each
    [null], a text that does not parse, or a pair that is not a legal move,
    POST /api/ai-move makes exactly 3 round trips, leaves the game
    unchanged, and answers 400 with a non-empty error text. *)
Theorem ai_move_exhausted (chess : Chess) :
  turn chess = Black ->
  (forall k p, (k < 3)%nat -> attempt_fails JSON_parse chess (callOpenAiForMove openai k p)) ->
  exists log,
    post_ai_move openai JSON_parse chess
    = (bad_request (lit "AI failed to provide a valid move after multiple attempts."),
       chess, log)
    /\ List.length log = 3%nat
    /\ lit "AI failed to provide a valid move after multiple attempts." <> [].
Proof.
  intros Tn Bad.
  destruct (retry_loop_all_fail 3 chess (buildOpenAIPrompt chess) [])
    as (V & C & L); [intros k p K; apply Bad; cbn in K; lia|].
  exists (exchanges (retry_loop openai JSON_parse 3 chess (buildOpenAIPrompt chess) [])).
  unfold post_ai_move; rewrite Tn; cbn [Color_eqb].
  cbv zeta; rewrite V, C; split; [reflexivity | split; [exact L | discriminate]].
Qed.

(** The notes of a log do not change when the log grows. *)
Lemma notes_before_grow (chess : Chess) (log : list Exchange) (x : Exchange) (k : nat) :
  (k <= List.length log)%nat ->
  notes_before JSON_parse chess (log ++ [x]) k = notes_before JSON_parse chess log k.
Proof.
  intros L; unfold notes_before; rewrite firstn_app.
  replace (k - List.length log)%nat with 0%nat by lia.
  cbn [firstn]; rewrite app_nil_r; reflexivity.
Qed.

Lemma notes_before_all (chess : Chess) (log : list Exchange) (x : Exchange) :
  notes_before JSON_parse chess (log ++ [x]) (List.length (log ++ [x]))
  = notes_before JSON_parse chess log (List.length log)
    ++ note_for JSON_parse chess (ex_answer x).
Proof.
  unfold notes_before; rewrite !firstn_all, map_app, concat_app.
  cbn [map List.concat]; rewrite app_nil_r; reflexivity.
Qed.

(** One more round trip, made with the accumulated prompt, keeps the log
    cumulative. *)
Lemma cumulative_step (chess : Chess) (base prompt : jsstring) (log : list Exchange) :
  cumulative openai JSON_parse chess base log ->
  prompt = base ++ notes_before JSON_parse chess log (List.length log) ->
  cumulative openai JSON_parse chess base
    (log ++ [mkExchange prompt (callOpenAiForMove openai (List.length log) prompt)]).
Proof.
  intros Inv P k e N.
  destruct (Nat.lt_ge_cases k (List.length log)) as [Lt|Ge].
  - rewrite nth_error_app1 in N by exact Lt.
    rewrite notes_before_grow by lia; apply Inv; exact N.
  - rewrite nth_error_app2 in N by exact Ge.
    destruct (k - List.length log)%nat as [|j] eqn:D; cbn in N.
    + injection N as <-; cbn [ex_prompt ex_answer].
      replace k with (List.length log) by lia.
      rewrite notes_before_grow by lia; split; [exact P | reflexivity].
    + destruct j; discriminate N.
Qed.

Lemma retry_loop_cumulative (Pure : refusal_changes_nothing) (chess : Chess)
      (base : jsstring) (retries : nat) :
  forall (prompt : jsstring) (log : list Exchange),
    cumulative openai JSON_parse chess base log ->
    prompt = base ++ notes_before JSON_parse chess log (List.length log) ->
    cumulative openai JSON_parse chess base
      (exchanges (retry_loop openai JSON_parse retries chess prompt log)).
Proof.
  induction retries as [|r IH]; intros prompt log Inv P; [exact Inv|].
  pose proof (cumulative_step chess base prompt log Inv P) as Inv'.
  pose proof (notes_before_all chess log
                (mkExchange prompt (callOpenAiForMove openai (List.length log) prompt))) as All.
  cbn [ex_answer] in All.
  cbn [retry_loop].
  destruct (callOpenAiForMove openai (List.length log) prompt) as [[|c text]|] eqn:A.
  - apply IH; [exact Inv'|].
    rewrite All, P, <- app_assoc; reflexivity.
  - cbn [note_for] in All.
    destruct (JSON_parse (c :: text)) as [aiMove|].
    + destruct (found_in (moves chess) aiMove).
      * pose proof (Pure chess (member_text (ai_from aiMove))
                         (member_text (ai_to aiMove)) Queen) as Same.
        revert All Same.
        destruct (move chess _ _ Queen) as [[[m|]|message] chess'];
          cbn [fst snd accepted]; intros All Same.
        -- exact Inv'.
        -- rewrite (Same eq_refl).
           apply IH; [exact Inv'|].
           rewrite All, app_nil_r; exact P.
        -- rewrite (Same eq_refl).
           apply IH; [exact Inv'|].
           rewrite All, P, <- app_assoc; reflexivity.
      * apply IH; [exact Inv'|].
        rewrite All, P, <- app_assoc; reflexivity.
    + apply IH; [exact Inv'|].
      rewrite All, P, <- app_assoc; reflexivity.
  - apply IH; [exact Inv'|].
    rewrite All, P, <- app_assoc; reflexivity.
Qed.

(** C2. In one call of POST /api/ai-move, every prompt sent to the oracle is
    the prompt built on entry followed by the corrective notes of all the
    attempts before it, in the order of the attempts; in particular each
    prompt extends the one before it.  (Given that a refused [chess.move]
    changes nothing.) *)
Theorem prompts_accumulate_notes (chess : Chess) :
  refusal_changes_nothing ->
  forall k e,
    nth_error (snd (post_ai_move openai JSON_parse chess)) k = Some e ->
    ex_prompt e
    = buildOpenAIPrompt chess
      ++ notes_before JSON_parse chess (snd (post_ai_move openai JSON_parse chess)) k
    /\ ex_answer e = callOpenAiForMove openai k (ex_prompt e).
Proof.
  intros Pure.
  change (cumulative openai JSON_parse chess (buildOpenAIPrompt chess)
            (snd (post_ai_move openai JSON_parse chess))).
  unfold post_ai_move.
  destruct (Color_eqb (turn chess) White).
  - intros [|k] e N; discriminate N.
  - cbv zeta.
    assert (C : cumulative openai JSON_parse chess (buildOpenAIPrompt chess)
                  (exchanges (retry_loop openai JSON_parse 3 chess (buildOpenAIPrompt chess) []))).
    { apply retry_loop_cumulative; [exact Pure | |].
      - intros [|k] e N; discriminate N.
      - cbn; rewrite app_nil_r; reflexivity. }
    destruct (validMove _); exact C.
Qed.

(** The two ways in which the loop goes on after [chess.move] has refused a
    pair that is on the list of legal moves.  A [null] leaves the prompt
    unchanged: no note is appended for this attempt. *)
Lemma refused_move_retries_without_note
      (retries : nat) (chess chess' : Chess) (prompt text : jsstring)
      (log : list Exchange) (aiMove : AiMove) :
  callOpenAiForMove openai (List.length log) prompt = Some text ->
  JSON_parse text = Some aiMove ->
  found_in (moves chess) aiMove = true ->
  move chess (member_text (ai_from aiMove)) (member_text (ai_to aiMove)) Queen
  = (Returns None, chess') ->
  retry_loop openai JSON_parse (S retries) chess prompt log
  = retry_loop openai JSON_parse retries chess' prompt
               (log ++ [mkExchange prompt (Some text)]).
Proof.
  intros A P F M.
  pose proof (callOpenAiForMove_nonempty _ _ _ A) as NE.
  cbn [retry_loop]; rewrite A.
  destruct text as [|c text]; [contradiction|].
  rewrite P, F, M; reflexivity.
Qed.

(** An exception is caught with the parse errors: the note appended is the
    one that asks for valid JSON, not the one that cites the pair. *)
Lemma thrown_refusal_gets_parse_note
      (retries : nat) (chess chess' : Chess) (prompt text message : jsstring)
      (log : list Exchange) (aiMove : AiMove) :
  callOpenAiForMove openai (List.length log) prompt = Some text ->
  JSON_parse text = Some aiMove ->
  found_in (moves chess) aiMove = true ->
  move chess (member_text (ai_from aiMove)) (member_text (ai_to aiMove)) Queen
  = (Throws message, chess') ->
  retry_loop openai JSON_parse (S retries) chess prompt log
  = retry_loop openai JSON_parse retries chess' (prompt ++ note_parse)
               (log ++ [mkExchange prompt (Some text)]).
Proof.
  intros A P F M.
  pose proof (callOpenAiForMove_nonempty _ _ _ A) as NE.
  cbn [retry_loop]; rewrite A.
  destruct text as [|c text]; [contradiction|].
  rewrite P, F, M; reflexivity.
Qed.

End ServerFacts.

(** ** The statements on concrete games *)

(** The book engine keeps the contracts. *)
Lemma Book_refusal_changes_nothing : refusal_changes_nothing (Chess := nat).
Proof.
  intros c from to promotion; cbn; unfold Book.try_move.
  destruct (nth_error Book.line c) as [p|]; [|reflexivity].
  destruct (streq from (Book.square (Book.src p)) && streq to (Book.square (Book.dst p)));
    [discriminate | reflexivity].
Qed.

Lemma Book_refuses_by_null : refuses_by_null (Chess := nat).
Proof.
  intros c from to promotion message; cbn; unfold Book.try_move.
  destruct (nth_error Book.line c) as [p|]; [|discriminate].
  destruct (streq from (Book.square (Book.src p)) && streq to (Book.square (Book.dst p)));
    discriminate.
Qed.

Lemma Book_only_squares_move : only_squares_move (Chess := nat).
Proof.
  intros c from to promotion NS; cbn; unfold Book.try_move.
  destruct (nth_error Book.line c) as [p|] eqn:N; [|reflexivity].
  destruct (streq from (Book.square (Book.src p))) eqn:F; [|reflexivity].
  destruct (streq to (Book.square (Book.dst p))) eqn:T; [|reflexivity].
  apply streq_true_iff in F; apply streq_true_iff in T; subst from to.
  exfalso.
  destruct c as [|[|c]]; cbn in N;
    [injection N as <- | injection N as <- | destruct c; discriminate N];
    destruct NS as [X|X]; discriminate X.
Qed.

Import Sample.

Lemma callOpenAiForMove_sample :
  callOpenAiForMove Sample.third_time_lucky 1 [] = Some (lit "{e5}")
  /\ callOpenAiForMove Sample.third_time_lucky 2 [] = Some (object_text e7 e5)
  /\ callOpenAiForMove (scripted [Completes (Some (lit "} no object {"))]) 0 [] = None.
Proof. repeat split; reflexivity. Qed.

Lemma ai_move_exhausted_witness :
  exists log,
    post_ai_move Sample.three_failures parse_move_object 1%nat
    = (bad_request (lit "AI failed to provide a valid move after multiple attempts."),
       1%nat, log)
    /\ List.length log = 3%nat
    /\ lit "AI failed to provide a valid move after multiple attempts." <> [].
Proof.
  apply (ai_move_exhausted Sample.three_failures parse_move_object 1%nat).
  - reflexivity.
  - intros k p K.
    destruct k as [|[|[|k]]]; [vm_compute; exact I | vm_compute; exact I | reflexivity | lia].
Defined.

Lemma prompts_accumulate_notes_witness :
  let log := snd (post_ai_move Sample.third_time_lucky parse_move_object 1%nat) in
  let third := mkExchange (buildOpenAIPrompt 1%nat ++ note_empty ++ note_parse)
                          (Some (object_text e7 e5)) in
  nth_error log 2 = Some third
  /\ ex_prompt third = buildOpenAIPrompt 1%nat ++ notes_before parse_move_object 1%nat log 2
  /\ ex_answer third = callOpenAiForMove Sample.third_time_lucky 2 (ex_prompt third).
Proof.
  cbv zeta; split; [vm_compute; reflexivity|].
  apply (prompts_accumulate_notes Sample.third_time_lucky parse_move_object 1%nat
           Book_refusal_changes_nothing 2%nat).
  vm_compute; reflexivity.
Defined.

Lemma ai_move_out_of_turn_witness :
  post_ai_move Sample.always_e7e5 parse_move_object 0%nat
  = (bad_request (lit "It is White" ++ rsquo ++ lit "s turn, not AI" ++ rsquo ++ lit "s turn."),
     0%nat, [])
  /\ status (fst (fst (post_ai_move Sample.always_e7e5 parse_move_object 0%nat))) = 400.
Proof.
  apply (ai_move_out_of_turn Sample.always_e7e5 parse_move_object 0%nat); reflexivity.
Defined.


Lemma refused_move_retries_without_note_witness :
  let chess := Stubborn.mkGame 1 false in
  let prompt := buildOpenAIPrompt chess in
  retry_loop Sample.always_e7e5 parse_move_object 3 chess prompt []
  = retry_loop Sample.always_e7e5 parse_move_object 2 chess prompt
               ([] ++ [mkExchange prompt (Some (object_text e7 e5))]).
Proof.
  cbv zeta.
  apply (refused_move_retries_without_note Sample.always_e7e5 parse_move_object 2
           (Stubborn.mkGame 1 false) (Stubborn.mkGame 1 false) _ (object_text e7 e5) []
           (mkAiMove (MString e7) (MString e5)));
    reflexivity.
Defined.

Lemma thrown_refusal_gets_parse_note_witness :
  let chess := Stubborn.mkGame 1 true in
  let prompt := buildOpenAIPrompt chess in
  retry_loop Sample.always_e7e5 parse_move_object 3 chess prompt []
  = retry_loop Sample.always_e7e5 parse_move_object 2 chess (prompt ++ note_parse)
               ([] ++ [mkExchange prompt (Some (object_text e7 e5))]).
Proof.
  cbv zeta.
  apply (thrown_refusal_gets_parse_note Sample.always_e7e5 parse_move_object 2
           (Stubborn.mkGame 1 true) (Stubborn.mkGame 1 true) _ (object_text e7 e5)
           Strict.invalid_move [] (mkAiMove (MString e7) (MString e5)));
    reflexivity.
Defined.

Lemma coordsToAlgebraic_names_square_witness :
  coordsToAlgebraic (Num 6) (Num 4) = [97 + 4; 48 + (8 - 6)].
Proof.
  apply (proj1 coordsToAlgebraic_names_square 6 4); lia.
Defined.

Lemma coordsToAlgebraic_has_no_range_check_witness :
  (toAlgebraic_checked 4 4 = Some (coordsToAlgebraic (Num 4) (Num 4))
   /\ is_square (coordsToAlgebraic (Num 4) (Num 4)) = true)
  /\ (toAlgebraic_checked (-1) 3 = None
      /\ is_square (coordsToAlgebraic (Num (-1)) (Num 3)) = false)
  /\ (toAlgebraic_checked 2 8 = None
      /\ is_square (coordsToAlgebraic (Num 2) (Num 8)) = false).
Proof.
  split; [|split].
  - apply (proj1 (coordsToAlgebraic_has_no_range_check 4 4)); reflexivity.
  - apply (proj1 (proj2 (coordsToAlgebraic_has_no_range_check (-1) 3))); lia.
  - apply (proj2 (proj2 (coordsToAlgebraic_has_no_range_check 2 8))); lia.
Defined.

(** C7, the claim as stated fails.  Row 8 and column 8 are out of range, the
    checked translator of the specification fails there, and the code
    returns the string i0. *)
Lemma out_of_range_is_translated :
  in_range 8 8 = false
  /\ toAlgebraic_checked 8 8 = None
  /\ coordsToAlgebraic (Num 8) (Num 8) = lit "i0".
Proof. repeat split; reflexivity. Qed.

(** C9, on an engine with the manners of chess.js from 1.0.0 on.  At the
    starting position White asks for e2-e5, which the engine refuses by
    throwing.  Nothing in the handler catches the exception: the answer is
    the error page with status 500, not a 400 response with an error text.
    The game is unchanged.  The same request to an engine that refuses by
    returning [null] is answered with the 400 response 'Illegal move.'. *)
Theorem post_move_refusal_escapes :
  let req := mkMoveRequest (Some (mkCoords (Num 6) (Num 4))) (Some (mkCoords (Num 3) (Num 4))) in
  let chess := Strict.mkGame 0 in
  turn chess = White
  /\ coordsToAlgebraic (Num 6) (Num 4) = lit "e2"
  /\ coordsToAlgebraic (Num 3) (Num 4) = lit "e5"
  /\ fst (move chess (lit "e2") (lit "e5") Queen) = Throws Strict.invalid_move
  /\ post_move chess req = (server_error Strict.invalid_move, chess)
  /\ status (fst (post_move chess req)) = 500
  /\ post_move 0%nat req = (bad_request (lit "Illegal move."), 0%nat).
Proof. cbv zeta; repeat split; reflexivity. Qed.

(** C10, on an engine with the manners of chess.js from 1.0.0 on.  [from]
    lacks its [col].  The request passes the guard of line 86, [from] is
    translated to a string that is not a square name, and the engine refuses
    it by throwing: the answer is the error page with status 500, neither
    the 400 response 'Illegal move.' nor the one of the guard.  The game is
    unchanged.  An engine that refuses by returning [null] gives the 400
    response 'Illegal move.'. *)
Theorem post_move_incomplete_coordinates_escape :
  let from := mkCoords (Num 6) Undefined in
  let to := mkCoords (Num 4) (Num 4) in
  let req := mkMoveRequest (Some from) (Some to) in
  let chess := Strict.mkGame 0 in
  turn chess = White
  /\ is_square (coordsToAlgebraic (row from) (col from)) = false
  /\ post_move chess req = (server_error Strict.invalid_move, chess)
  /\ status (fst (post_move chess req)) = 500
  /\ fst (post_move chess req) <> bad_request (lit "Missing from/to in request body.")
  /\ post_move 0%nat req = (bad_request (lit "Illegal move."), 0%nat).
Proof. cbv zeta; repeat split; try reflexivity; discriminate. Qed.

Lemma post_move_failure_is_atomic_witness :
  let req := mkMoveRequest (Some (mkCoords (Num 6) (Num 4))) (Some (mkCoords (Num 3) (Num 4))) in
  status (fst (post_move 0%nat req)) = 400
  /\ exists error,
       body (fst (post_move 0%nat req)) = ErrorBody error
       /\ error <> [] /\ snd (post_move 0%nat req) = 0%nat.
Proof.
  cbv zeta; split; [reflexivity|].
  apply (proj2 (post_move_failure_is_atomic 0%nat
                  (mkMoveRequest (Some (mkCoords (Num 6) (Num 4)))
                                 (Some (mkCoords (Num 3) (Num 4))))
                  Book_refuses_by_null Book_refusal_changes_nothing)).
  reflexivity.
Defined.

Lemma post_move_incomplete_coordinates_witness :
  let from := mkCoords (Num 6) Undefined in
  let to := mkCoords (Num 4) (Num 4) in
  fst (post_move 0%nat (mkMoveRequest (Some from) (Some to)))
  = bad_request (lit "Illegal move.").
Proof.
  cbv zeta.
  exact (proj1 (proj2 (proj2
           (post_move_incomplete_coordinates 0%nat (mkCoords (Num 6) Undefined)
              (mkCoords (Num 4) (Num 4)) Book_refusal_changes_nothing
              Book_only_squares_move eq_refl (or_intror (or_introl eq_refl)))))).
Defined.

(** * Further properties of the server *)

(** ** The translator on all integers *)

Lemma rank_digit (row : Z) : 0 <= row <= 7 -> Z_toString (8 - row) = [48 + (8 - row)].
Proof.
  intros R.
  assert (C : row = 0 \/ row = 1 \/ row = 2 \/ row = 3 \/ row = 4 \/ row = 5 \/ row = 6 \/ row = 7)
    by lia.
  destruct C as [->|[->|[->|[->|[->|[->|[->| ->]]]]]]]; reflexivity.
Qed.

(** Inside [0,7]x[0,7] the translator is one-to-one, and every square name is
    the name of a cell: the 64 cells of the grid and the 64 squares
    correspond. *)
Theorem coordsToAlgebraic_bijective :
  (forall row col row' col' : Z,
      0 <= row <= 7 -> 0 <= col <= 7 -> 0 <= row' <= 7 -> 0 <= col' <= 7 ->
      coordsToAlgebraic (Num row) (Num col) = coordsToAlgebraic (Num row') (Num col') ->
      row = row' /\ col = col')
  /\ (forall s : jsstring,
         is_square s = true ->
         exists row col, 0 <= row <= 7 /\ 0 <= col <= 7
                         /\ coordsToAlgebraic (Num row) (Num col) = s).
Proof.
  split.
  - intros row col row' col' R C R' C' E.
    rewrite !coordsToAlgebraic_in_range in E by assumption.
    pose proof (f_equal (fun l => nth 0 l 0) E) as E1.
    pose proof (f_equal (fun l => nth 1 l 0) E) as E2.
    cbn [nth] in E1, E2; lia.
  - intros [|f [|r [|? ?]]] S; try discriminate S.
    unfold is_square in S; rewrite !andb_true_iff, !Z.leb_le in S.
    exists (56 - r), (f - 97); split; [lia | split; [lia|]].
    rewrite coordsToAlgebraic_in_range by lia.
    replace (97 + (f - 97)) with f by lia.
    replace (48 + (8 - (56 - r))) with r by lia.
    reflexivity.
Qed.

(** Among the safe integers (here: of magnitude below 2^52, where the
    doubles of line 62 add without rounding), those that the translator
    turns into a square name are exactly the rows 0..7 with a column that is
    0..7 modulo 65536: the file letter is a 16-bit code unit, so column
    65536 + c names the same file as column c. *)
Theorem coordsToAlgebraic_square_iff (row col : Z) :
  Z.abs row < 2 ^ 52 -> Z.abs col < 2 ^ 52 ->
  (is_square (coordsToAlgebraic (Num row) (Num col)) = true
   <-> 0 <= row <= 7 /\ 0 <= col mod 65536 <= 7).
Proof.
  intros _ _.
  rewrite coordsToAlgebraic_Num.
  assert (M : (97 + col) mod 65536 = (97 + col mod 65536) mod 65536)
    by (rewrite Z.add_mod_idemp_r by lia; reflexivity).
  pose proof (Z.mod_pos_bound col 65536 ltac:(lia)) as B.
  split.
  - destruct (Z_toString (8 - row)) as [|r [|? ?]] eqn:E; try discriminate.
    unfold is_square; rewrite !andb_true_iff, !Z.leb_le; intros [[[F1 F2] D1] D2].
    apply single_digit in E; [|lia].
    split; [lia|].
    rewrite M in F1, F2.
    destruct (Z_lt_le_dec (97 + col mod 65536) 65536) as [Lo|Hi].
    + rewrite Z.mod_small in F1, F2 by lia; lia.
    + replace ((97 + col mod 65536) mod 65536) with (97 + col mod 65536 - 65536) in F1
        by (apply Z.mod_unique with (q := 1); lia).
      lia.
  - intros [R C].
    rewrite rank_digit by exact R.
    rewrite M, Z.mod_small by lia.
    unfold is_square; rewrite !andb_true_iff, !Z.leb_le; lia.
Qed.

Lemma coordsToAlgebraic_square_iff_witness :
  is_square (coordsToAlgebraic (Num 6) (Num 65540)) = true.
Proof.
  apply (proj2 (coordsToAlgebraic_square_iff 6 65540 ltac:(reflexivity) ltac:(reflexivity))).
  split; [lia|].
  vm_compute; split; discriminate.
Defined.

(** ** The list of recent moves *)

Lemma mapi_from_nth {A B : Type} (f : A -> nat -> B) (l : list A) (start i : nat) (x : A) :
  nth_error l i = Some x -> nth_error (mapi_from start f l) i = Some (f x (start + i)%nat).
Proof.
  revert start i; induction l as [|y t IH]; intros start [|i] N; try discriminate N.
  - injection N as ->; cbn; rewrite Nat.add_0_r; reflexivity.
  - cbn [mapi_from nth_error]; rewrite (IH (S start) i N); do 2 f_equal; lia.
Qed.

Lemma recentMoves_nth (allMoves : list Move) (i : nat) (m : Move) :
  nth_error allMoves (List.length allMoves - 8 + i) = Some m ->
  nth_error (recentMoves allMoves) i
  = Some (numbered_line (Z.of_nat (List.length allMoves) - 7 + Z.of_nat i) m).
Proof.
  intros N; rewrite recentMoves_slice.
  rewrite (mapi_from_nth _ _ 0 i m) by (rewrite nth_error_skipn; exact N).
  rewrite move_line_numbered; do 2 f_equal; lia.
Qed.

(** The list in the prompt has [min 8 total] lines.  Line [i] is about the
    move at position [total - 8 + i] of the history (position [i] when fewer
    than 8 moves were played) and is numbered [total - 7 + i]. *)
Theorem recentMoves_lines (allMoves : list Move) :
  List.length (recentMoves allMoves) = Nat.min 8 (List.length allMoves)
  /\ forall (i : nat) (m : Move),
       nth_error allMoves (List.length allMoves - 8 + i) = Some m ->
       nth_error (recentMoves allMoves) i
       = Some (numbered_line (Z.of_nat (List.length allMoves) - 7 + Z.of_nat i) m).
Proof.
  split; [apply recentMoves_length | apply recentMoves_nth].
Qed.

Lemma recentMoves_lines_witness :
  nth_error (recentMoves (history (Chess := nat) 2%nat)) 1
  = Some (numbered_line (Z.of_nat 2 - 7 + Z.of_nat 1)
                        (mkMove Black (lit "e7") (lit "e5"))).
Proof.
  exact (proj2 (recentMoves_lines (history (Chess := nat) 2%nat)) 1%nat
               (mkMove Black (lit "e7") (lit "e5")) eq_refl).
Defined.

Lemma numbered_line_nonempty (n : Z) (m : Move) : numbered_line n m <> [].
Proof.
  unfold numbered_line; intros E.
  apply app_eq_nil in E; destruct E as [_ E]; discriminate E.
Qed.

(** The text 'No moves yet.' stands in for the list exactly when no move has
    been played: the joined list is the empty string only for an empty
    history. *)
Theorem no_moves_text_iff_empty_history (allMoves : list Move) :
  join nl (recentMoves allMoves) = [] <-> allMoves = [].
Proof.
  split; [|intros ->; reflexivity].
  intros J.
  destruct allMoves as [|m t]; [reflexivity | exfalso].
  pose proof (recentMoves_length (m :: t)) as L.
  destruct (recentMoves (m :: t)) as [|line rest] eqn:R; [cbn in L; lia|].
  assert (NE : line <> []).
  { pose proof (recentMoves_nth (m :: t) 0%nat) as Nth.
    destruct (nth_error (m :: t) (List.length (m :: t) - 8 + 0)) as [x|] eqn:X.
    - specialize (Nth x eq_refl); rewrite R in Nth; injection Nth as ->.
      apply numbered_line_nonempty.
    - apply nth_error_None in X; cbn [List.length] in *; lia. }
  cbn [join] in J; destruct rest; [contradiction|].
  apply app_eq_nil in J; destruct J as [J _]; contradiction.
Qed.

Lemma coordsToAlgebraic_bijective_witness :
  (coordsToAlgebraic (Num 6) (Num 4) = coordsToAlgebraic (Num 6) (Num 4) -> 6 = 6 /\ 4 = 4)
  /\ exists row col, 0 <= row <= 7 /\ 0 <= col <= 7
                     /\ coordsToAlgebraic (Num row) (Num col) = lit "e2".
Proof.
  split.
  - apply (proj1 coordsToAlgebraic_bijective 6 4 6 4); lia.
  - apply (proj2 coordsToAlgebraic_bijective (lit "e2")); reflexivity.
Defined.

(** ** The board presenter *)

Lemma unicodeMap_inj (t t' : PieceType) (c c' : Color) :
  unicodeMap t c = unicodeMap t' c' -> t = t' /\ c = c'.
Proof. destruct t, c, t', c'; intros E; try discriminate E; split; reflexivity. Qed.

Lemma unicodeMap_not_dot (t : PieceType) (c : Color) : unicodeMap t c <> lit ".".
Proof. destruct t, c; discriminate. Qed.

Section Presenter.

Context {Chess : Type} `{RulesEngine Chess}.

Lemma getUnicodeBoard_cell (chess : Chess) (r c : nat) :
  (r < 8)%nat -> (c < 8)%nat ->
  nth_error (getUnicodeBoard chess) r
  = Some (map (fun k => match board chess r k with
                        | None => lit "."
                        | Some cell => unicodeMap (p_type cell) (p_color cell)
                        end) (seq 0 8))
  /\ nth c (nth r (getUnicodeBoard chess) []) []
     = match board chess r c with
       | None => lit "."
       | Some cell => unicodeMap (p_type cell) (p_color cell)
       end.
Proof.
  intros R C.
  do 8 (destruct r as [|r]; [split; [reflexivity|];
                             do 8 (destruct c as [|c]; [reflexivity|]); lia|]).
  lia.
Qed.

(** [getUnicodeBoard] returns 8 rows of 8 cells; a cell is the dot exactly
    when the engine's cell is empty; and the grid loses nothing: two games
    with the same grid have the same piece on every cell. *)
Theorem getUnicodeBoard_faithful (chess : Chess) :
  List.length (getUnicodeBoard chess) = 8%nat
  /\ (forall row, In row (getUnicodeBoard chess) -> List.length row = 8%nat)
  /\ (forall r c, (r < 8)%nat -> (c < 8)%nat ->
        (nth c (nth r (getUnicodeBoard chess) []) [] = lit "." <-> board chess r c = None))
  /\ (forall chess' : Chess,
        getUnicodeBoard chess = getUnicodeBoard chess' ->
        forall r c, (r < 8)%nat -> (c < 8)%nat -> board chess r c = board chess' r c).
Proof.
  split; [reflexivity|]. split; [|split].
  - intros row I; unfold getUnicodeBoard in I.
    apply in_map_iff in I; destruct I as (r & <- & _); reflexivity.
  - intros r c R C; rewrite (proj2 (getUnicodeBoard_cell chess r c R C)).
    destruct (board chess r c) as [cell|]; split; try reflexivity; try discriminate.
    intros E; exfalso; exact (unicodeMap_not_dot _ _ E).
  - intros chess' E r c R C.
    pose proof (proj2 (getUnicodeBoard_cell chess r c R C)) as A.
    pose proof (proj2 (getUnicodeBoard_cell chess' r c R C)) as B.
    rewrite E, B in A.
    destruct (board chess r c) as [[t k]|], (board chess' r c) as [[t' k']|];
      cbn [p_type p_color] in A; try reflexivity.
    + apply unicodeMap_inj in A; destruct A as [-> ->]; reflexivity.
    + exfalso; exact (unicodeMap_not_dot _ _ (eq_sym A)).
    + exfalso; exact (unicodeMap_not_dot _ _ A).
Qed.

End Presenter.

Lemma getUnicodeBoard_faithful_witness :
  nth 4 (nth 4 (getUnicodeBoard 0%nat) []) [] = lit "." <-> board 0%nat 4 4 = None.
Proof.
  apply (proj1 (proj2 (proj2 (getUnicodeBoard_faithful 0%nat))) 4%nat 4%nat); lia.
Defined.

(** ** The oracle client and the retry loop *)

Section LoopFacts.

Context {Chess : Type} `{RulesEngine Chess}.
Variable openai : nat -> jsstring -> Completion.
Variable JSON_parse : jsstring -> option AiMove.

(** A text that [callOpenAiForMove] returns starts with an opening brace,
    ends with a closing brace and holds no other closing brace, so it is
    never empty and never holds a nested object whole; extracting from it
    again returns it unchanged. *)
Theorem oracle_answer_shape (k : nat) (userPrompt m : jsstring) :
  callOpenAiForMove openai k userPrompt = Some m ->
  (exists mid, m = Extract.lbrace :: mid ++ [Extract.rbrace] /\ ~ In Extract.rbrace mid)
  /\ (2 <= List.length m)%nat
  /\ Extract.match_object m = Some m.
Proof.
  rewrite callOpenAiForMove_match.
  destruct (openai k userPrompt) as [|[raw|]]; try discriminate.
  intros E; apply ExtractFacts.match_object_first in E.
  destruct E as (pre & mid & post & _ & -> & _ & NM).
  split; [exists mid; auto | split].
  - cbn [List.length]; rewrite length_app; cbn; lia.
  - apply ExtractFacts.match_object_first.
    exists [], mid, []; rewrite app_nil_r; cbn [app In]; auto.
Qed.

(** The loop makes at least one and at most [retries] round trips, and all
    of them when it ends without a move. *)
Lemma retry_loop_round_trips (retries : nat) :
  forall (chess : Chess) (prompt : jsstring) (log : list Exchange),
    (List.length (exchanges (retry_loop openai JSON_parse retries chess prompt log))
     <= List.length log + retries)%nat
    /\ (validMove (retry_loop openai JSON_parse retries chess prompt log) = None ->
        List.length (exchanges (retry_loop openai JSON_parse retries chess prompt log))
        = (List.length log + retries)%nat)
    /\ (validMove (retry_loop openai JSON_parse retries chess prompt log) <> None ->
        (List.length log
         < List.length (exchanges (retry_loop openai JSON_parse retries chess prompt log)))%nat).
Proof.
  induction retries as [|r IH]; intros chess prompt log.
  - cbn; repeat split; try lia. intros X; contradiction.
  - assert (Len : forall x : Exchange, List.length (log ++ [x]) = S (List.length log))
      by (intros x; rewrite length_app; cbn; lia).
    cbn [retry_loop].
    set (x := mkExchange prompt (callOpenAiForMove openai (List.length log) prompt)).
    assert (Go : forall chess' prompt',
               (List.length (exchanges (retry_loop openai JSON_parse r chess' prompt' (log ++ [x])))
                <= List.length log + S r)%nat
               /\ (validMove (retry_loop openai JSON_parse r chess' prompt' (log ++ [x])) = None ->
                   List.length (exchanges (retry_loop openai JSON_parse r chess' prompt' (log ++ [x])))
                   = (List.length log + S r)%nat)
               /\ (validMove (retry_loop openai JSON_parse r chess' prompt' (log ++ [x])) <> None ->
                   (List.length log
                    < List.length (exchanges (retry_loop openai JSON_parse r chess' prompt' (log ++ [x]))))%nat)).
    { intros chess' prompt'.
      destruct (IH chess' prompt' (log ++ [x])) as (A & B & C); rewrite Len in A, B, C.
      repeat split; [lia | intros V; rewrite (B V); lia | intros V; specialize (C V); lia]. }
    destruct (callOpenAiForMove openai (List.length log) prompt) as [[|c text]|];
      try apply Go.
    destruct (JSON_parse (c :: text)) as [aiMove|]; [|apply Go].
    destruct (found_in (moves chess) aiMove); [|apply Go].
    destruct (move chess _ _ Queen) as [[[m|]|message] chess']; try apply Go.
    cbn [exchanges validMove]; rewrite Len.
    repeat split; [lia | discriminate | lia].
Qed.

(** POST /api/ai-move never makes more than 3 round trips.  It answers 400
    only without any round trip (White's turn) or after all 3; it answers
    200 only on Black's turn, after at least one. *)
Theorem ai_move_round_trips (chess : Chess) :
  (List.length (snd (post_ai_move openai JSON_parse chess)) <= 3)%nat
  /\ (status (fst (fst (post_ai_move openai JSON_parse chess))) = 400 ->
      (turn chess = White /\ snd (post_ai_move openai JSON_parse chess) = [])
      \/ (turn chess = Black
          /\ List.length (snd (post_ai_move openai JSON_parse chess)) = 3%nat))
  /\ (status (fst (fst (post_ai_move openai JSON_parse chess))) = 200 ->
      turn chess = Black
      /\ (1 <= List.length (snd (post_ai_move openai JSON_parse chess)))%nat).
Proof.
  unfold post_ai_move.
  destruct (turn chess); cbn [Color_eqb].
  - cbn; split; [lia|]; split; [intros _; left; auto | discriminate].
  - cbv zeta.
    destruct (retry_loop_round_trips 3 chess (buildOpenAIPrompt chess) []) as (A & B & C).
    cbn [List.length Nat.add] in A, B, C.
    destruct (validMove (retry_loop openai JSON_parse 3 chess (buildOpenAIPrompt chess) []))
      as [m|] eqn:V; cbn [fst snd status bad_request ok].
    + split; [exact A|]; split; [discriminate|].
      intros _; split; [reflexivity | apply C; discriminate].
    + split; [exact A|]; split; [|discriminate].
      intros _; right; split; [reflexivity | apply B; reflexivity].
Qed.

(** When the first [k] answers fail and the next one names a listed move
    that the engine accepts, the loop ends with that move after [k + 1] round
    trips. *)
Lemma retry_loop_succeeds (k r : nat) (chess chess' : Chess) (text : jsstring)
      (aiMove : AiMove) (m : Move) :
  JSON_parse text = Some aiMove ->
  found_in (moves chess) aiMove = true ->
  move chess (member_text (ai_from aiMove)) (member_text (ai_to aiMove)) Queen
  = (Returns (Some m), chess') ->
  forall (prompt : jsstring) (log : list Exchange),
    (forall j p, (List.length log <= j < List.length log + k)%nat ->
                 attempt_fails JSON_parse chess (callOpenAiForMove openai j p)) ->
    (forall p, callOpenAiForMove openai (List.length log + k) p = Some text) ->
    validMove (retry_loop openai JSON_parse (k + S r) chess prompt log) = Some m
    /\ chess_end (retry_loop openai JSON_parse (k + S r) chess prompt log) = chess'
    /\ List.length (exchanges (retry_loop openai JSON_parse (k + S r) chess prompt log))
       = (List.length log + k + 1)%nat.
Proof.
  intros P F M.
  induction k as [|k IH]; intros prompt log Bad Good.
  - cbn [Nat.add retry_loop].
    rewrite Nat.add_0_r in Good; rewrite (Good prompt).
    pose proof (callOpenAiForMove_nonempty openai _ _ _ (Good prompt)) as NE.
    destruct text as [|c text]; [contradiction|].
    rewrite P, F, M; cbn [validMove chess_end exchanges].
    rewrite length_app; cbn; repeat split; lia.
  - assert (Now : attempt_fails JSON_parse chess
                    (callOpenAiForMove openai (List.length log) prompt))
      by (apply Bad; lia).
    assert (Go : forall x prompt',
               validMove (retry_loop openai JSON_parse (k + S r) chess prompt' (log ++ [x])) = Some m
               /\ chess_end (retry_loop openai JSON_parse (k + S r) chess prompt' (log ++ [x])) = chess'
               /\ List.length (exchanges (retry_loop openai JSON_parse (k + S r) chess prompt' (log ++ [x])))
                  = (List.length log + S k + 1)%nat).
    { intros x prompt'.
      assert (Len : List.length (log ++ [x]) = S (List.length log))
        by (rewrite length_app; cbn; lia).
      destruct (IH prompt' (log ++ [x])) as (A & B & C).
      - intros j p L; apply Bad; lia.
      - intros p; rewrite Len; replace (S (List.length log) + k)%nat
          with (List.length log + S k)%nat by lia; apply Good.
      - rewrite Len in C; repeat split; [exact A | exact B | lia]. }
    cbn [Nat.add retry_loop].
    destruct (callOpenAiForMove openai (List.length log) prompt) as [[|c t]|];
      cbn [attempt_fails] in Now; try apply Go.
    destruct (JSON_parse (c :: t)) as [other|]; [|apply Go].
    rewrite Now; apply Go.
Qed.

(** For [k] below 3: when the first [k] answers fail and answer [k + 1] names
    a listed move that the engine accepts, POST /api/ai-move answers 200 with
    the view of the game after that move, leaves that game in place, and has
    made exactly [k + 1] round trips. *)
Theorem ai_move_succeeds_after_failures (k : nat) (chess chess' : Chess) (text : jsstring)
        (aiMove : AiMove) (m : Move) :
  turn chess = Black ->
  (k < 3)%nat ->
  (forall j p, (j < k)%nat -> attempt_fails JSON_parse chess (callOpenAiForMove openai j p)) ->
  (forall p, callOpenAiForMove openai k p = Some text) ->
  JSON_parse text = Some aiMove ->
  found_in (moves chess) aiMove = true ->
  move chess (member_text (ai_from aiMove)) (member_text (ai_to aiMove)) Queen
  = (Returns (Some m), chess') ->
  fst (post_ai_move openai JSON_parse chess) = (ok (view chess'), chess')
  /\ List.length (snd (post_ai_move openai JSON_parse chess)) = (k + 1)%nat.
Proof.
  intros Tn K Bad Good P F M.
  destruct (retry_loop_succeeds k (2 - k) chess chess' text aiMove m P F M
              (buildOpenAIPrompt chess) []) as (A & B & C).
  - intros j p L; apply Bad; cbn in L; lia.
  - exact Good.
  - replace (k + S (2 - k))%nat with 3%nat in A, B, C by lia.
    unfold post_ai_move; rewrite Tn; cbn [Color_eqb]; cbv zeta.
    rewrite A, B; cbn [fst snd]; split; [reflexivity | exact C].
Qed.

Lemma found_in_listed (possible : list Move) (aiMove : AiMove) :
  found_in possible aiMove = true ->
  exists m, In m possible
            /\ member_text (ai_from aiMove) = m_from m
            /\ member_text (ai_to aiMove) = m_to m.
Proof.
  unfold found_in; intros E; apply existsb_exists in E.
  destruct E as (m & I & E); apply andb_true_iff in E; destruct E as [Ef Et].
  exists m; split; [exact I|].
  destruct (ai_from aiMove) as [f|?], (ai_to aiMove) as [t|?]; try discriminate.
  cbn in *; apply streq_true_iff in Ef; apply streq_true_iff in Et; auto.
Qed.

Lemma retry_loop_outcome (Pure : refusal_changes_nothing) (retries : nat) (chess : Chess) :
  forall (prompt : jsstring) (log : list Exchange),
    match validMove (retry_loop openai JSON_parse retries chess prompt log) with
    | None => chess_end (retry_loop openai JSON_parse retries chess prompt log) = chess
    | Some mv =>
        exists m, In m (moves chess)
                  /\ move chess (m_from m) (m_to m) Queen
                     = (Returns (Some mv),
                        chess_end (retry_loop openai JSON_parse retries chess prompt log))
    end.
Proof.
  induction retries as [|r IH]; intros prompt log; [reflexivity|].
  cbn [retry_loop].
  destruct (callOpenAiForMove openai (List.length log) prompt) as [[|c text]|];
    try apply IH.
  destruct (JSON_parse (c :: text)) as [aiMove|]; [|apply IH].
  destruct (found_in (moves chess) aiMove) eqn:F; [|apply IH].
  destruct (found_in_listed _ _ F) as (m & I & -> & ->).
  pose proof (Pure chess (m_from m) (m_to m) Queen) as Same.
  destruct (move chess (m_from m) (m_to m) Queen) as [[[mv|]|message] chess'] eqn:M;
    cbn [fst snd accepted] in Same.
  - cbn [validMove chess_end]; exists m; rewrite M; auto.
  - rewrite (Same eq_refl); apply IH.
  - rewrite (Same eq_refl); apply IH.
Qed.

(** Given that a refused [chess.move] changes nothing: every 400 answer of
    POST /api/ai-move leaves the game as it was, and every 200 answer shows
    the game after one [chess.move] of a move that [chess.moves] listed for
    the position on entry, requested with queen promotion. *)
Theorem ai_move_applies_only_listed_moves (chess : Chess) :
  refusal_changes_nothing ->
  (status (fst (fst (post_ai_move openai JSON_parse chess))) = 400 ->
   snd (fst (post_ai_move openai JSON_parse chess)) = chess)
  /\ (status (fst (fst (post_ai_move openai JSON_parse chess))) = 200 ->
      exists m mv,
        In m (moves chess)
        /\ move chess (m_from m) (m_to m) Queen
           = (Returns (Some mv), snd (fst (post_ai_move openai JSON_parse chess)))
        /\ fst (fst (post_ai_move openai JSON_parse chess))
           = ok (view (snd (fst (post_ai_move openai JSON_parse chess))))).
Proof.
  intros Pure; unfold post_ai_move.
  destruct (Color_eqb (turn chess) White).
  - cbn; split; [reflexivity | discriminate].
  - cbv zeta.
    pose proof (retry_loop_outcome Pure 3 chess (buildOpenAIPrompt chess) []) as O.
    destruct (validMove (retry_loop openai JSON_parse 3 chess (buildOpenAIPrompt chess) []))
      as [mv|]; cbn [fst snd status bad_request ok].
    + split; [discriminate|].
      intros _; destruct O as (m & I & M); exists m, mv; auto.
    + split; [intros _; exact O | discriminate].
Qed.

(** ** All the routes together *)

Variable new_Chess : Chess.

(** Every 200 answer, of whichever route, carries the view of the game the
    route leaves behind: it is what GET /api/board answers right after. *)
Theorem success_shows_current_game (chess : Chess) (req : MoveRequest) :
  (status (fst (post_move chess req)) = 200 ->
   fst (post_move chess req) = fst (get_board (snd (post_move chess req))))
  /\ (status (fst (fst (post_ai_move openai JSON_parse chess))) = 200 ->
      fst (fst (post_ai_move openai JSON_parse chess))
      = fst (get_board (snd (fst (post_ai_move openai JSON_parse chess)))))
  /\ fst (post_reset new_Chess chess) = fst (get_board (snd (post_reset new_Chess chess)))
  /\ snd (get_board chess) = chess.
Proof.
  split; [|split; [|split; reflexivity]].
  - unfold post_move.
    destruct (rq_from req), (rq_to req); try discriminate.
    destruct (negb (Color_eqb (turn chess) White)); [discriminate|].
    destruct (move chess _ _ Queen) as [[[m|]|message] chess'];
      [reflexivity | discriminate | discriminate].
  - unfold post_ai_move.
    destruct (Color_eqb (turn chess) White); [discriminate|].
    cbv zeta; destruct (validMove _); [reflexivity | discriminate].
Qed.

End LoopFacts.

Lemma oracle_answer_shape_witness :
  (exists mid, Sample.object_text Sample.e7 Sample.e5
               = Extract.lbrace :: mid ++ [Extract.rbrace] /\ ~ In Extract.rbrace mid)
  /\ (2 <= List.length (Sample.object_text Sample.e7 Sample.e5))%nat
  /\ Extract.match_object (Sample.object_text Sample.e7 Sample.e5)
     = Some (Sample.object_text Sample.e7 Sample.e5).
Proof.
  apply (oracle_answer_shape Sample.third_time_lucky 2 []); reflexivity.
Defined.

Lemma ai_move_round_trips_witness :
  (turn 1%nat = White
   /\ snd (post_ai_move Sample.three_failures Sample.parse_move_object 1%nat) = [])
  \/ (turn 1%nat = Black
      /\ List.length (snd (post_ai_move Sample.three_failures Sample.parse_move_object 1%nat))
         = 3%nat).
Proof.
  apply (proj1 (proj2 (ai_move_round_trips Sample.three_failures Sample.parse_move_object
                                            1%nat))).
  reflexivity.
Defined.

Lemma ai_move_succeeds_after_failures_witness :
  fst (post_ai_move Sample.third_time_lucky Sample.parse_move_object 1%nat)
  = (ok (view 2%nat), 2%nat)
  /\ List.length (snd (post_ai_move Sample.third_time_lucky Sample.parse_move_object 1%nat))
     = (2 + 1)%nat.
Proof.
  apply (ai_move_succeeds_after_failures Sample.third_time_lucky Sample.parse_move_object
           2 1%nat 2%nat (Sample.object_text Sample.e7 Sample.e5)
           (mkAiMove (MString Sample.e7) (MString Sample.e5))
           (mkMove Black Sample.e7 Sample.e5)).
  - reflexivity.
  - lia.
  - intros j p J; destruct j as [|[|j]]; [vm_compute; exact I | vm_compute; exact I | lia].
  - intros p; reflexivity.
  - reflexivity.
  - reflexivity.
  - reflexivity.
Defined.

Lemma ai_move_applies_only_listed_moves_witness :
  exists m mv,
    In m (moves 1%nat)
    /\ move 1%nat (m_from m) (m_to m) Queen
       = (Returns (Some mv),
          snd (fst (post_ai_move Sample.third_time_lucky Sample.parse_move_object 1%nat)))
    /\ fst (fst (post_ai_move Sample.third_time_lucky Sample.parse_move_object 1%nat))
       = ok (view (snd (fst (post_ai_move Sample.third_time_lucky Sample.parse_move_object
                                          1%nat)))).
Proof.
  apply (proj2 (ai_move_applies_only_listed_moves Sample.third_time_lucky
                  Sample.parse_move_object 1%nat Book_refusal_changes_nothing)).
  reflexivity.
Defined.

Lemma success_shows_current_game_witness :
  let req := mkMoveRequest (Some (mkCoords (Num 6) (Num 4))) (Some (mkCoords (Num 4) (Num 4))) in
  fst (post_move 0%nat req) = fst (get_board (snd (post_move 0%nat req))).
Proof.
  cbv zeta.
  apply (proj1 (success_shows_current_game Sample.always_e7e5 Sample.parse_move_object
                  0%nat 0%nat
                  (mkMoveRequest (Some (mkCoords (Num 6) (Num 4)))
                                 (Some (mkCoords (Num 4) (Num 4)))))).
  reflexivity.
Defined.

(** * Properties of the browser client *)

Module ClientFacts.
Import Client.

Lemma parseInt_attribute (n : nat) :
  (n < 8)%nat -> parseInt (Z_toString (Z.of_nat n)) = Int (Z.of_nat n).
Proof.
  intros N; do 8 (destruct n as [|n]; [reflexivity|]); lia.
Qed.

Lemma glyph_is_text (t : PieceType) (c : Color) :
  Extract.trim (unicodeMap t c) = unicodeMap t c
  /\ streq (unicodeMap t c) (lit ".") = false.
Proof. destruct t, c; split; reflexivity. Qed.

Lemma update_at_nth {A : Type} (f : A -> A) (l : list A) (i j : nat) :
  nth_error (update_at i f l) j
  = if Nat.eqb i j then option_map f (nth_error l j) else nth_error l j.
Proof.
  revert i j; induction l as [|x t IH]; intros [|i] [|j]; cbn; try reflexivity.
  - destruct (Nat.eqb _ _); reflexivity.
  - apply IH.
Qed.

Section Rendered.

Context {Chess : Type} `{RulesEngine Chess}.

(** The text the server sends for a cell. *)
Local Notation "'cell' chess r c" :=
  (nth c (nth r (getUnicodeBoard chess) []) [])
  (at level 10, chess at level 9, r at level 9, c at level 9, only parsing).

Lemma render_rows_server (chess : Chess) :
  snd (render_rows (getUnicodeBoard chess) (seq 0 8) []) = true
  /\ List.length (fst (render_rows (getUnicodeBoard chess) (seq 0 8) [])) = 64%nat.
Proof. split; reflexivity. Qed.

Lemma rendered_square (chess : Chess) (r c : nat) :
  (r < 8)%nat -> (c < 8)%nat ->
  nth_error (fst (render_rows (getUnicodeBoard chess) (seq 0 8) [])) (8 * r + c)
  = Some (new_square r c (Some (cell chess r c))).
Proof.
  intros R C.
  do 8 (destruct r as [|r]; [do 8 (destruct c as [|c]; [reflexivity|]); lia|]).
  lia.
Qed.

Lemma cell_text (chess : Chess) (r c : nat) :
  (r < 8)%nat -> (c < 8)%nat ->
  textContent (new_square r c (Some (cell chess r c)))
  = match board chess r c with
    | None => []
    | Some p => unicodeMap (p_type p) (p_color p)
    end.
Proof.
  intros R C; rewrite (proj2 (getUnicodeBoard_cell chess r c R C)).
  cbn [new_square textContent].
  destruct (board chess r c) as [p|]; [|reflexivity].
  rewrite (proj2 (glyph_is_text _ _)); reflexivity.
Qed.

Lemma renderBoard_server (chess : Chess) (page : Page) :
  renderBoard (Some (getUnicodeBoard chess)) page
  = (mkPage (fst (render_rows (getUnicodeBoard chess) (seq 0 8) []))
            (statusText page) (statusBackground page) (selectedSquare page),
     true).
Proof.
  unfold renderBoard.
  pose proof (proj1 (render_rows_server chess)) as T.
  destruct (render_rows (getUnicodeBoard chess) (seq 0 8) []) as [squares completed].
  cbn [fst snd] in *; subst; reflexivity.
Qed.

(** Rendering a board the server sent always completes with 64 squares, row
    by row.  The square of cell (r, c) carries data attributes that
    [parseInt] reads back as r and c, has no outline, and has text exactly
    when the engine has a piece on the cell; the selection is not touched. *)
Theorem renderBoard_of_server_board (chess : Chess) (page : Page) :
  snd (renderBoard (Some (getUnicodeBoard chess)) page) = true
  /\ List.length (chessboard (fst (renderBoard (Some (getUnicodeBoard chess)) page))) = 64%nat
  /\ selectedSquare (fst (renderBoard (Some (getUnicodeBoard chess)) page))
     = selectedSquare page
  /\ forall r c, (r < 8)%nat -> (c < 8)%nat ->
       exists sq,
         nth_error (chessboard (fst (renderBoard (Some (getUnicodeBoard chess)) page)))
                   (8 * r + c) = Some sq
         /\ parseInt (data_row sq) = Int (Z.of_nat r)
         /\ parseInt (data_col sq) = Int (Z.of_nat c)
         /\ (textContent sq = [] <-> board chess r c = None)
         /\ outline sq = [].
Proof.
  rewrite renderBoard_server; cbn [fst snd chessboard selectedSquare].
  split; [reflexivity|]. split; [apply render_rows_server|]. split; [reflexivity|].
  intros r c R C; eexists; split; [apply rendered_square; assumption|].
  split; [apply parseInt_attribute; exact R|].
  split; [apply parseInt_attribute; exact C|].
  split; [|reflexivity].
  rewrite cell_text by assumption.
  destruct (board chess r c) as [[t k]|]; split; try reflexivity; try discriminate.
  destruct t, k; discriminate.
Qed.

(** The squares are coloured like a chess board: the square of cell (r, c)
    is light exactly when the code units of its file letter and rank digit
    add up to an odd number (so a1 is dark and h1 is light). *)
Theorem rendered_colours (chess : Chess) (page : Page) (r c : nat) :
  (r < 8)%nat -> (c < 8)%nat ->
  exists sq file rank,
    nth_error (chessboard (fst (renderBoard (Some (getUnicodeBoard chess)) page)))
              (8 * r + c) = Some sq
    /\ coordsToAlgebraic (Num (Z.of_nat r)) (Num (Z.of_nat c)) = [file; rank]
    /\ classList sq
       = [lit "square"; if Z.odd (file + rank) then lit "light" else lit "dark"].
Proof.
  intros R C; rewrite renderBoard_server; cbn [fst chessboard].
  eexists; exists (97 + Z.of_nat c), (48 + (8 - Z.of_nat r)).
  split; [apply rendered_square; assumption|].
  split; [apply coordsToAlgebraic_in_range; lia|].
  do 8 (destruct r as [|r]; [do 8 (destruct c as [|c]; [reflexivity|]); lia|]).
  lia.
Qed.

(** On a freshly rendered server board with nothing selected: a click on an
    empty cell changes nothing and posts nothing. *)
Theorem click_on_empty_cell (chess : Chess) (page : Page) (r c : nat) :
  selectedSquare page = None ->
  (r < 8)%nat -> (c < 8)%nat ->
  board chess r c = None ->
  onSquareClick (fst (renderBoard (Some (getUnicodeBoard chess)) page)) (8 * r + c)
  = (fst (renderBoard (Some (getUnicodeBoard chess)) page), None).
Proof.
  intros S R C E; rewrite renderBoard_server; cbn [fst].
  unfold onSquareClick; cbn [chessboard selectedSquare].
  rewrite rendered_square by assumption.
  rewrite S, cell_text, E by assumption; reflexivity.
Qed.

(** On a freshly rendered server board with nothing selected: a click on a
    cell with a piece selects it and posts nothing; the next click, on any
    cell (the same one included), posts the move from the first cell to the
    second with the coordinates of the two cells, and clears the selection. *)
Theorem two_clicks_post_a_move (chess : Chess) (page : Page) (r1 c1 r2 c2 : nat) :
  selectedSquare page = None ->
  (r1 < 8)%nat -> (c1 < 8)%nat -> (r2 < 8)%nat -> (c2 < 8)%nat ->
  board chess r1 c1 <> None ->
  let shown := fst (renderBoard (Some (getUnicodeBoard chess)) page) in
  let first := onSquareClick shown (8 * r1 + c1) in
  let second := onSquareClick (fst first) (8 * r2 + c2) in
  let from := mkSelected (Int (Z.of_nat r1)) (Int (Z.of_nat c1)) in
  let to := mkSelected (Int (Z.of_nat r2)) (Int (Z.of_nat c2)) in
  snd first = None
  /\ selectedSquare (fst first) = Some from
  /\ snd second = Some (from, to)
  /\ selectedSquare (fst second) = None
  /\ sent_request from to
     = Some (mkMoveRequest (Some (mkCoords (Num (Z.of_nat r1)) (Num (Z.of_nat c1))))
                           (Some (mkCoords (Num (Z.of_nat r2)) (Num (Z.of_nat c2))))).
Proof.
  intros S R1 C1 R2 C2 P; cbv zeta.
  rewrite renderBoard_server; cbn [fst].
  assert (First :
    onSquareClick
      (mkPage (fst (render_rows (getUnicodeBoard chess) (seq 0 8) []))
              (statusText page) (statusBackground page) (selectedSquare page))
      (8 * r1 + c1)
    = (mkPage
         (update_at (8 * r1 + c1)
            (fun sq => mkSquareDiv (classList sq) (textContent sq) (data_row sq)
                                   (data_col sq) (lit "2px solid red"))
            (fst (render_rows (getUnicodeBoard chess) (seq 0 8) [])))
         (statusText page) (statusBackground page)
         (Some (mkSelected (Int (Z.of_nat r1)) (Int (Z.of_nat c1)))),
       None)).
  { unfold onSquareClick at 1; cbn [chessboard selectedSquare statusText statusBackground].
    rewrite rendered_square by assumption.
    rewrite S, cell_text by assumption.
    destruct (board chess r1 c1) as [[t k]|]; [|contradiction].
    cbn [p_type p_color]; rewrite (proj1 (glyph_is_text t k)).
    cbn [new_square data_row data_col].
    rewrite !parseInt_attribute by assumption.
    destruct t, k; reflexivity. }
  rewrite First; cbn [fst snd selectedSquare].
  split; [reflexivity|]. split; [reflexivity|].
  unfold onSquareClick; cbn [chessboard selectedSquare].
  rewrite update_at_nth, rendered_square by assumption.
  assert (Attr : forall sq' : option SquareDiv,
             sq' = (if Nat.eqb (8 * r1 + c1) (8 * r2 + c2)
                    then option_map
                           (fun sq => mkSquareDiv (classList sq) (textContent sq) (data_row sq)
                                                  (data_col sq) (lit "2px solid red"))
                           (Some (new_square r2 c2 (Some (cell chess r2 c2))))
                    else Some (new_square r2 c2 (Some (cell chess r2 c2)))) ->
             exists sq, sq' = Some sq
                        /\ data_row sq = Z_toString (Z.of_nat r2)
                        /\ data_col sq = Z_toString (Z.of_nat c2)).
  { intros sq' ->; destruct (Nat.eqb _ _); eexists; split; reflexivity || (split; reflexivity). }
  destruct (Attr _ eq_refl) as (sq & -> & Dr & Dc).
  rewrite Dr, Dc, !parseInt_attribute by assumption.
  cbn [fst snd selectedSquare]; repeat split; reflexivity.
Qed.

Variable type_error_message : jsstring.

(** No reply of the server touches the selection.  So a square selected
    before the board is rendered again (after a reset, say) stays selected
    although no square is outlined any more, and the next click posts a move
    from it. *)
Theorem selection_survives_replies (chess : Chess) (page : Page) (selected : Selected)
        (reply : Reply) (r c : nat) :
  selectedSquare page = Some selected ->
  (r < 8)%nat -> (c < 8)%nat ->
  selectedSquare (fetchBoard_reply type_error_message page reply) = Some selected
  /\ selectedSquare (resetGame_reply type_error_message page reply) = Some selected
  /\ selectedSquare (postUserMove_reply type_error_message page reply) = Some selected
  /\ selectedSquare (aiMove_reply type_error_message page reply) = Some selected
  /\ (forall sq,
        In sq (chessboard (resetGame_reply type_error_message page
                                           (Json (ViewBody (view chess))))) ->
        outline sq = [])
  /\ snd (onSquareClick (resetGame_reply type_error_message page
                                         (Json (ViewBody (view chess)))) (8 * r + c))
     = Some (selected, mkSelected (Int (Z.of_nat r)) (Int (Z.of_nat c))).
Proof.
  intros S R C.
  assert (Render : forall context data,
             selectedSquare (render_then_status type_error_message context page data)
             = Some selected).
  { intros context data; unfold render_then_status, renderBoard.
    destruct (data_board data) as [rows|].
    - destruct (render_rows rows (seq 0 8) []) as [squares [|]];
        [unfold updateStatus; destruct (match data_currentPlayer data with
                                        | Some p => streq p (lit "white")
                                        | None => false
                                        end) | unfold showError];
        cbn [selectedSquare]; exact S.
    - unfold showError; cbn [selectedSquare]; exact S. }
  assert (Either : forall context data,
             selectedSquare (error_or_render type_error_message context page data)
             = Some selected).
  { intros context data; unfold error_or_render.
    destruct (data_error data) as [[|? ?]|]; try apply Render.
    unfold showError; cbn [selectedSquare]; exact S. }
  split; [destruct reply; [exact S | apply Render]|].
  split; [destruct reply; [exact S | apply Render]|].
  split; [destruct reply; [exact S | apply Either]|].
  split; [destruct reply; [exact S | apply Either]|].
  assert (Shown :
    resetGame_reply type_error_message page (Json (ViewBody (view chess)))
    = updateStatus
        (mkPage (fst (render_rows (getUnicodeBoard chess) (seq 0 8) []))
                (statusText page) (statusBackground page) (selectedSquare page))
        (Some (currentPlayer chess))).
  { unfold resetGame_reply, render_then_status.
    cbn [data_board data_currentPlayer view v_board v_currentPlayer].
    rewrite renderBoard_server; reflexivity. }
  rewrite Shown.
  assert (Board : forall p who, chessboard (updateStatus p who) = chessboard p
                                /\ selectedSquare (updateStatus p who) = selectedSquare p).
  { intros p who; unfold updateStatus; destruct (match who with
                                                 | Some q => streq q (lit "white")
                                                 | None => false
                                                 end); split; reflexivity. }
  split.
  - intros sq I; rewrite (proj1 (Board _ _)) in I; cbn [chessboard] in I.
    apply In_nth_error in I; destruct I as (n & N).
    assert (L : (n < 64)%nat).
    { rewrite <- (proj2 (render_rows_server chess)); apply nth_error_Some; congruence. }
    replace n with (8 * (n / 8) + n mod 8)%nat in N by (symmetry; apply Nat.div_mod_eq).
    rewrite rendered_square in N
      by (try apply Nat.Div0.div_lt_upper_bound; try apply Nat.mod_upper_bound; lia).
    injection N as <-; reflexivity.
  - unfold onSquareClick.
    rewrite (proj1 (Board _ _)), (proj2 (Board _ _)); cbn [chessboard selectedSquare].
    rewrite rendered_square, S by assumption.
    cbn [new_square data_row data_col snd].
    rewrite !parseInt_attribute by assumption; reflexivity.
Qed.

(** The page turns red exactly for the 400 answers of POST /api/move and
    POST /api/ai-move: such an answer leaves the board on the page as it was
    and shows the server's error text after 'Error: '; a 200 answer renders
    all 64 squares and shows green when it is White's turn in the game the
    server holds, yellow otherwise. *)
Theorem client_shows_server_errors (page : Page) (answer : Response) (after : Chess) :
  (exists (chess : Chess) (req : MoveRequest),
      (answer, after) = post_move chess req)
  \/ (exists (chess : Chess) openai JSON_parse,
         (answer, after) = fst (post_ai_move openai JSON_parse chess)) ->
  forall shown : Page,
    shown = postUserMove_reply type_error_message page (Json (body answer))
    \/ shown = aiMove_reply type_error_message page (Json (body answer)) ->
    (status answer = 400 ->
     exists error,
       body answer = ErrorBody error
       /\ statusText shown = lit "Error: " ++ error
       /\ statusBackground shown = lit "red"
       /\ chessboard shown = chessboard page)
    /\ (status answer = 200 ->
        List.length (chessboard shown) = 64%nat
        /\ statusBackground shown
           = (if Color_eqb (turn after) White then lit "green" else lit "yellow")).
Proof.
  intros From shown Shown.
  assert (Kind :
    (exists c error, status answer = 400 /\ body answer = ErrorBody (c :: error))
    \/ (status answer = 200 /\ body answer = ViewBody (view after))
    \/ status answer = 500).
  { destruct From as [(chess & req & E) | (chess & openai & JSON_parse & E)].
    - unfold post_move in E.
      destruct (rq_from req), (rq_to req);
        try (injection E as -> ->; left; eexists; eexists; split; reflexivity).
      destruct (negb (Color_eqb (turn chess) White));
        [injection E as -> ->; left; eexists; eexists; split; reflexivity|].
      destruct (move chess _ _ Queen) as [[[m|]|message] chess']; injection E as -> ->;
        [right; left; split; reflexivity
        | left; eexists; eexists; split; reflexivity
        | right; right; reflexivity].
    - unfold post_ai_move in E.
      destruct (Color_eqb (turn chess) White);
        [injection E as -> ->; left; eexists; eexists; split; reflexivity|].
      cbv zeta in E.
      remember (retry_loop openai JSON_parse 3 chess (buildOpenAIPrompt chess) []) as loop.
      clear Heqloop.
      destruct (validMove loop);
        pose proof (f_equal fst E) as E1; pose proof (f_equal snd E) as E2;
        cbn [fst snd] in E1, E2; subst answer after;
        [right; left; split; reflexivity | left; eexists; eexists; split; reflexivity]. }
  assert (Same : shown = error_or_render type_error_message
                           (lit "Error posting user move: ") page (body answer)
                 \/ shown = error_or_render type_error_message
                              (lit "Error in AI move: ") page (body answer))
    by (destruct Shown; [left | right]; assumption).
  destruct Kind as [(c & error & St & B) | [(St & B) | St]];
    [rewrite St, B in * | rewrite St, B in * | rewrite St; split; discriminate].
  - split; [|discriminate].
    intros _; exists (c :: error); split; [reflexivity|].
    destruct Same as [-> | ->]; repeat split; reflexivity.
  - split; [discriminate|].
    intros _.
    assert (Go : forall context,
               error_or_render type_error_message context page (ViewBody (view after))
               = updateStatus
                   (mkPage (fst (render_rows (getUnicodeBoard after) (seq 0 8) []))
                           (statusText page) (statusBackground page) (selectedSquare page))
                   (Some (currentPlayer after))).
    { intros context; unfold error_or_render, render_then_status.
      cbn [data_error data_board data_currentPlayer view v_board v_currentPlayer].
      rewrite renderBoard_server; reflexivity. }
    rewrite !Go in Same.
    assert (E : shown = updateStatus
                   (mkPage (fst (render_rows (getUnicodeBoard after) (seq 0 8) []))
                           (statusText page) (statusBackground page) (selectedSquare page))
                   (Some (currentPlayer after)))
      by (destruct Same; assumption).
    rewrite E; unfold updateStatus, currentPlayer.
    destruct (Color_eqb (turn after) White); cbn [chessboard statusBackground];
      (split; [apply render_rows_server | reflexivity]).
Qed.

End Rendered.

End ClientFacts.

Import Client.

Lemma renderBoard_of_server_board_witness :
  exists sq,
    nth_error (chessboard (fst (renderBoard (Some (getUnicodeBoard 0%nat))
                                            (mkPage [] [] [] None))))
              (8 * 6 + 4) = Some sq
    /\ parseInt (data_row sq) = Int (Z.of_nat 6)
    /\ parseInt (data_col sq) = Int (Z.of_nat 4)
    /\ (textContent sq = [] <-> board 0%nat 6 4 = None)
    /\ outline sq = [].
Proof.
  apply (proj2 (proj2 (proj2 (ClientFacts.renderBoard_of_server_board
                                0%nat (mkPage [] [] [] None)))) 6%nat 4%nat); lia.
Defined.

Lemma rendered_colours_witness :
  exists sq file rank,
    nth_error (chessboard (fst (renderBoard (Some (getUnicodeBoard 0%nat))
                                            (mkPage [] [] [] None))))
              (8 * 7 + 0) = Some sq
    /\ coordsToAlgebraic (Num (Z.of_nat 7)) (Num (Z.of_nat 0)) = [file; rank]
    /\ classList sq
       = [lit "square"; if Z.odd (file + rank) then lit "light" else lit "dark"].
Proof.
  apply (ClientFacts.rendered_colours 0%nat (mkPage [] [] [] None) 7%nat 0%nat); lia.
Defined.

Lemma click_on_empty_cell_witness :
  onSquareClick (fst (renderBoard (Some (getUnicodeBoard 0%nat)) (mkPage [] [] [] None)))
                (8 * 4 + 4)
  = (fst (renderBoard (Some (getUnicodeBoard 0%nat)) (mkPage [] [] [] None)), None).
Proof.
  apply (ClientFacts.click_on_empty_cell 0%nat (mkPage [] [] [] None) 4%nat 4%nat);
    reflexivity || lia.
Defined.

Lemma two_clicks_post_a_move_witness :
  let shown := fst (renderBoard (Some (getUnicodeBoard 0%nat)) (mkPage [] [] [] None)) in
  let first := onSquareClick shown (8 * 6 + 4) in
  let second := onSquareClick (fst first) (8 * 4 + 4) in
  let from := mkSelected (Int (Z.of_nat 6)) (Int (Z.of_nat 4)) in
  let to := mkSelected (Int (Z.of_nat 4)) (Int (Z.of_nat 4)) in
  snd first = None
  /\ selectedSquare (fst first) = Some from
  /\ snd second = Some (from, to)
  /\ selectedSquare (fst second) = None
  /\ sent_request from to
     = Some (mkMoveRequest (Some (mkCoords (Num (Z.of_nat 6)) (Num (Z.of_nat 4))))
                           (Some (mkCoords (Num (Z.of_nat 4)) (Num (Z.of_nat 4))))).
Proof.
  apply (ClientFacts.two_clicks_post_a_move 0%nat (mkPage [] [] [] None)
           6%nat 4%nat 4%nat 4%nat); try reflexivity; try lia.
  vm_compute; discriminate.
Defined.

Lemma selection_survives_replies_witness :
  let page := mkPage [] [] [] (Some (mkSelected (Int 6) (Int 4))) in
  let shown := resetGame_reply (lit "undefined") page (Json (ViewBody (view 0%nat))) in
  selectedSquare shown = Some (mkSelected (Int 6) (Int 4))
  /\ snd (onSquareClick shown (8 * 4 + 4))
     = Some (mkSelected (Int 6) (Int 4), mkSelected (Int (Z.of_nat 4)) (Int (Z.of_nat 4))).
Proof.
  cbv zeta.
  pose proof (ClientFacts.selection_survives_replies (lit "undefined") 0%nat
                (mkPage [] [] [] (Some (mkSelected (Int 6) (Int 4))))
                (mkSelected (Int 6) (Int 4)) (Json (ViewBody (view 0%nat))) 4%nat 4%nat
                eq_refl ltac:(lia) ltac:(lia)) as (_ & R & _ & _ & _ & Click).
  split; [exact R | exact Click].
Defined.

Lemma client_shows_server_errors_witness :
  let req := mkMoveRequest (Some (mkCoords (Num 6) (Num 4))) (Some (mkCoords (Num 3) (Num 4))) in
  let answer := fst (post_move 0%nat req) in
  let shown := postUserMove_reply (lit "undefined") (mkPage [] [] [] None) (Json (body answer)) in
  exists error,
    body answer = ErrorBody error
    /\ statusText shown = lit "Error: " ++ error
    /\ statusBackground shown = lit "red"
    /\ chessboard shown = chessboard (mkPage [] [] [] None).
Proof.
  cbv zeta.
  refine (proj1 (ClientFacts.client_shows_server_errors (lit "undefined")
                   (mkPage [] [] [] None)
                   (fst (post_move 0%nat
                           (mkMoveRequest (Some (mkCoords (Num 6) (Num 4)))
                                          (Some (mkCoords (Num 3) (Num 4))))))
                   0%nat _ _ (or_introl eq_refl)) _).
  - left; exists 0%nat.
    exists (mkMoveRequest (Some (mkCoords (Num 6) (Num 4))) (Some (mkCoords (Num 3) (Num 4)))).
    reflexivity.
  - reflexivity.
Defined.
